(** * xonsh directory stack: [cd], [pushd], [popd], [dirs]

    A shallow embedding of [xonsh/dirstack.py].  The module-level list
    [DIRSTACK], the environment [builtins.__xonsh_env__], the state of the
    operating system and the log of fired [on_chdir] events are threaded
    through every operation as one explicit [State].  Everything the module
    obtains from outside (the file system, [os.path], [argparse], globbing)
    is an interface [Sys]; a concrete POSIX-like instance is given further
    down and used for the worked examples. *)

From Stdlib Require Import String Ascii List ZArith Bool Lia DecimalString.
Import ListNotations.

Local Open Scope string_scope.
Local Open Scope Z_scope.

(** ** Python built-ins used by the module *)

Module Py.

(** [s.startswith(p)] *)
Definition startswith (p s : string) : bool := String.prefix p s.

(** [s[1:]] *)
Definition tail1 (s : string) : string :=
  match s with
  | EmptyString => EmptyString
  | String _ r => r
  end.

(** [s[:-1]] *)
Fixpoint drop_last (s : string) : string :=
  match s with
  | EmptyString => EmptyString
  | String c r =>
      match r with
      | EmptyString => EmptyString
      | String _ _ => String c (drop_last r)
      end
  end.

Definition rev_string (s : string) : string :=
  string_of_list_ascii (rev (list_ascii_of_string s)).

(** [s.endswith(p)] *)
Definition endswith (p s : string) : bool :=
  String.prefix (rev_string p) (rev_string s).

(** [s.replace(old, new)]: every non-overlapping occurrence of [old],
    scanning from the left.  [skip] counts the characters of a match that
    are still to be dropped. *)
Fixpoint replace_from (old new : string) (skip : nat) (s : string) : string :=
  match s with
  | EmptyString => EmptyString
  | String c r =>
      match skip with
      | S k => replace_from old new k r
      | O =>
          if String.prefix old s
          then new ++ replace_from old new (Nat.pred (String.length old)) r
          else String c (replace_from old new O r)
      end
  end.

(** With an empty [old] Python puts [new] before every character and at
    the end. *)
Fixpoint intersperse (new s : string) : string :=
  match s with
  | EmptyString => new
  | String c r => new ++ String c (intersperse new r)
  end.

Definition replace (old new s : string) : string :=
  match old with
  | EmptyString => intersperse new s
  | String _ _ => replace_from old new O s
  end.

(** [sep.join(l)] *)
Fixpoint join (sep : string) (l : list string) : string :=
  match l with
  | [] => EmptyString
  | [x] => x
  | x :: r => x ++ sep ++ join sep r
  end.

(** [' ' * n] *)
Fixpoint spaces (n : nat) : string :=
  match n with
  | O => EmptyString
  | S k => String " "%char (spaces k)
  end.

(** [str(n)] for an integer. *)
Definition str (n : Z) : string := NilZero.string_of_int (Z.to_int n).

Definition is_digit (c : ascii) : bool :=
  let n := nat_of_ascii c in (48 <=? n)%nat && (n <=? 57)%nat.

Definition digit_val (c : ascii) : Z := Z.of_nat (nat_of_ascii c) - 48.

(** Whitespace as [int()] strips it from ASCII text: tab, newline,
    vertical tab, form feed, carriage return and blank. *)
Definition is_space (c : ascii) : bool :=
  let n := nat_of_ascii c in
  ((9 <=? n)%nat && (n <=? 13)%nat) || (n =? 32)%nat.

Fixpoint lstrip (s : string) : string :=
  match s with
  | EmptyString => EmptyString
  | String c r => if is_space c then lstrip r else s
  end.

Fixpoint rstrip (s : string) : string :=
  match s with
  | EmptyString => EmptyString
  | String c r =>
      match rstrip r with
      | EmptyString => if is_space c then EmptyString else String c EmptyString
      | r' => String c r'
      end
  end.

(** The digits of an integer literal: decimal digits, with single
    underscores allowed between two digits.  [prev] tells whether the
    previous character was a digit. *)
Fixpoint int_digits (acc : Z) (prev : bool) (s : string) : option Z :=
  match s with
  | EmptyString => if prev then Some acc else None
  | String c r =>
      if is_digit c then int_digits (10 * acc + digit_val c) true r
      else if Ascii.eqb c "_"%char
           then (if prev then int_digits acc false r else None)
           else None
  end.

(** [sys.get_int_max_str_digits()]: the interpreter refuses to convert a
    string with more digits than this (4300 unless configured otherwise);
    sign, underscores and blanks do not count, leading zeros do. *)
Definition int_max_str_digits : Z := 4300.

Fixpoint count_digits (s : string) : Z :=
  match s with
  | EmptyString => 0
  | String c r => (if is_digit c then 1 else 0) + count_digits r
  end.

(** The unsigned part of the literal. *)
Definition int_unsigned (t : string) : option Z :=
  if count_digits t >? int_max_str_digits then None else int_digits 0 false t.

(** [int(s)] on ASCII text; [None] stands for [ValueError]. *)
Definition int (s : string) : option Z :=
  match rstrip (lstrip s) with
  | String "+"%char r => int_unsigned r
  | String "-"%char r => option_map Z.opp (int_unsigned r)
  | t => int_unsigned t
  end.

(** [len(l)] *)
Definition len {A} (l : list A) : Z := Z.of_nat (length l).

(** A Python index, negative ones counted from the end; [None] when it
    falls outside the list ([IndexError]). *)
Definition index {A} (i : Z) (l : list A) : option nat :=
  let j := if i <? 0 then i + len l else i in
  if (0 <=? j) && (j <? len l) then Some (Z.to_nat j) else None.

(** [l[i]] *)
Definition getitem {A} (i : Z) (l : list A) : option A :=
  match index i l with
  | Some k => nth_error l k
  | None => None
  end.

(** [l.pop(i)]: the element and the list without it. *)
Definition pop {A} (i : Z) (l : list A) : option (A * list A) :=
  match index i l with
  | Some k =>
      match nth_error l k with
      | Some x => Some (x, (firstn k l ++ skipn (S k) l)%list)
      | None => None
      end
  | None => None
  end.

(** [l[:m]] *)
Definition slice_to {A} (m : Z) (l : list A) : list A :=
  if m <? 0 then firstn (Z.to_nat (len l + m)) l else firstn (Z.to_nat m) l.

End Py.

(** The newline character of the messages. *)
Definition nl : string := String (ascii_of_nat 10) EmptyString.

(** ** Data model *)

(** The namespace [pushd_parser.parse_args] returns ([popd] parses with the
    same parser). *)
Record PushdArgs := mkPushdArgs {
  a_dir : option string;   (* positional [dir], [nargs='?'] *)
  a_cd : bool;             (* [-n] stores [False] here *)
  a_quiet : bool           (* [-q] *)
}.

(** The namespace [dirs_parser.parse_args] returns. *)
Record DirsArgs := mkDirsArgs {
  a_N : option string;
  a_clear : bool;          (* [-c] *)
  a_print_long : bool;     (* [-p] *)
  a_verbose : bool;        (* [-v] *)
  a_long : bool            (* [-l] *)
}.

(** What a command hands back to its caller: the three-element tuple, the
    two-element tuple, or an exception that nothing catches. *)
Inductive Result :=
| Triple (out err : option string) (rc : Z)
| Pair (out err : option string)
| Uncaught (exn : string).

(** The collaborators of the module.  [W] is the state of the operating
    system (file system and the cwd of the process). *)
Record Sys (W : Type) := mkSys {
  get_sep : string;                              (* [xonsh.tools.get_sep()] *)
  path_join : string -> string -> string;        (* [os.path.join] *)
  path_abspath : W -> string -> string;          (* [os.path.abspath] *)
  path_basename : string -> string;              (* [os.path.basename] *)
  expanduser_tilde : string -> string;           (* [os.path.expanduser] on [~...] *)
  path_isdir : W -> string -> bool;              (* [os.path.isdir] *)
  path_exists : W -> string -> bool;             (* [os.path.exists] *)
  access_X_OK : W -> string -> bool;             (* [os.access(d, os.X_OK)] *)
  chdir : W -> string -> option W;               (* [os.chdir]; [None] is [OSError] *)
  expand_path : string -> string;                (* [builtins.__xonsh_expand_path__] *)
  iglob : W -> string -> list string;            (* [glob.iglob] *)
  pushd_parse_args : list string -> option PushdArgs;  (* [None] is [SystemExit] *)
  dirs_parse_args : list string -> option DirsArgs;
  (* an empty argument vector parses to the defaults *)
  pushd_parse_nil :
    pushd_parse_args [] = Some (mkPushdArgs None true false);
  dirs_parse_nil :
    dirs_parse_args [] = Some (mkDirsArgs None false false false false)
}.

Arguments get_sep {W}.
Arguments path_join {W}.
Arguments path_abspath {W}.
Arguments path_basename {W}.
Arguments expanduser_tilde {W}.
Arguments path_isdir {W}.
Arguments path_exists {W}.
Arguments access_X_OK {W}.
Arguments chdir {W}.
Arguments expand_path {W}.
Arguments iglob {W}.
Arguments pushd_parse_args {W}.
Arguments dirs_parse_args {W}.
Arguments pushd_parse_nil {W}.
Arguments dirs_parse_nil {W}.

(** The environment variables the module reads and writes, the global
    [DIRSTACK], the operating system, and the [on_chdir] events fired so
    far (oldest first).  [PWD] is a string throughout, so the module's
    [is not None] tests on it always pass. *)
Record State (W : Type) := mkState {
  PWD : string;
  OLDPWD : option string;
  CDPATH : list string;
  AUTO_PUSHD : bool;
  PUSHD_MINUS : bool;
  PUSHD_SILENT : bool;
  DIRSTACK_SIZE : Z;
  DIRSTACK : list string;
  world : W;
  on_chdir : list (string * string)
}.

Arguments mkState {W}.
Arguments PWD {W}.
Arguments OLDPWD {W}.
Arguments CDPATH {W}.
Arguments AUTO_PUSHD {W}.
Arguments PUSHD_MINUS {W}.
Arguments PUSHD_SILENT {W}.
Arguments DIRSTACK_SIZE {W}.
Arguments DIRSTACK {W}.
Arguments world {W}.
Arguments on_chdir {W}.

Section Updates.
Context {W : Type}.

Definition set_PWD (p : string) (st : State W) : State W :=
  mkState p (OLDPWD st) (CDPATH st) (AUTO_PUSHD st) (PUSHD_MINUS st)
    (PUSHD_SILENT st) (DIRSTACK_SIZE st) (DIRSTACK st) (world st) (on_chdir st).

Definition set_OLDPWD (o : option string) (st : State W) : State W :=
  mkState (PWD st) o (CDPATH st) (AUTO_PUSHD st) (PUSHD_MINUS st)
    (PUSHD_SILENT st) (DIRSTACK_SIZE st) (DIRSTACK st) (world st) (on_chdir st).

Definition set_PUSHD_MINUS (b : bool) (st : State W) : State W :=
  mkState (PWD st) (OLDPWD st) (CDPATH st) (AUTO_PUSHD st) b
    (PUSHD_SILENT st) (DIRSTACK_SIZE st) (DIRSTACK st) (world st) (on_chdir st).

Definition set_DIRSTACK (l : list string) (st : State W) : State W :=
  mkState (PWD st) (OLDPWD st) (CDPATH st) (AUTO_PUSHD st) (PUSHD_MINUS st)
    (PUSHD_SILENT st) (DIRSTACK_SIZE st) l (world st) (on_chdir st).

Definition set_world (w : W) (st : State W) : State W :=
  mkState (PWD st) (OLDPWD st) (CDPATH st) (AUTO_PUSHD st) (PUSHD_MINUS st)
    (PUSHD_SILENT st) (DIRSTACK_SIZE st) (DIRSTACK st) w (on_chdir st).

(** [events.on_chdir.fire(old, new)] *)
Definition fire (old new : string) (st : State W) : State W :=
  mkState (PWD st) (OLDPWD st) (CDPATH st) (AUTO_PUSHD st) (PUSHD_MINUS st)
    (PUSHD_SILENT st) (DIRSTACK_SIZE st) (DIRSTACK st) (world st)
    (on_chdir st ++ [(old, new)])%list.

End Updates.

(** ** The operations *)

Section Dirstack.
Context {W : Type} (sys : Sys W).

(** [os.path.expanduser]: only a path that starts with a tilde is
    touched. *)
Definition expanduser (p : string) : string :=
  if Py.startswith "~" p then expanduser_tilde sys p else p.

(** [_change_working_directory(newdir)] *)
Definition change_working_directory (newdir : string) (st : State W) : State W :=
  let old := PWD st in
  let new := path_join sys old newdir in
  let absnew := path_abspath sys (world st) new in
  let st1 :=
    match chdir sys (world st) absnew with
    | None =>
        let new := if Py.endswith (get_sep sys) new then Py.drop_last new else new in
        if String.eqb (path_basename sys new) ".." then set_PWD new st else st
    | Some w' =>
        set_world w' (set_PWD absnew (set_OLDPWD (Some old) st))
    end in
  (* Fire event if the path actually changed *)
  if negb (String.eqb old (PWD st1)) then fire old (PWD st1) st1 else st1.

(** The literal path [new] of the [except] arm of
    [_change_working_directory], after the trailing separator is cut. *)
Definition fallback_path (d : string) (st : State W) : string :=
  let new := path_join sys (PWD st) d in
  if Py.endswith (get_sep sys) new then Py.drop_last new else new.

(** [_try_cdpath(apath)]: the first glob match under the first CDPATH
    root that has one, else [apath] itself. *)
Fixpoint try_cdpath_in (w : W) (cdpaths : list string) (apath : string) : string :=
  match cdpaths with
  | [] => apath
  | cdp :: rest =>
      let globber := expand_path sys (path_join sys cdp apath) in
      match iglob sys w globber with
      | cdpath_prefixed_path :: _ => cdpath_prefixed_path
      | [] => try_cdpath_in w rest apath
      end
  end.

Definition try_cdpath (apath : string) (st : State W) : string :=
  try_cdpath_in (world st) (CDPATH st) apath.

(** *** dirs *)

(** The [-v] listing before its leading newline is cut off. *)
Fixpoint verbose_lines (pad : nat) (ix : Z) (o : list string) : string :=
  match o with
  | [] => EmptyString
  | e :: r =>
      let blanks := Py.spaces (pad - String.length (Py.str ix)) in
      nl ++ blanks ++ Py.str ix ++ " " ++ e ++ verbose_lines pad (ix + 1) r
  end.

(** The sign symbols of [dirs] and of [popd]: both arms of the
    [PUSHD_MINUS] test assign the same pair. *)
Definition dirs_signs (st : State W) : string * string :=
  if PUSHD_MINUS st then ("-", "+") else ("-", "+").

Definition dirs (args : list string) (st : State W) : Result * State W :=
  match dirs_parse_args sys args with
  | None => (Pair None None, st)
  | Some a =>
      let dirstack := expanduser (PWD st) :: DIRSTACK st in
      let '(BACKWARD, FORWARD) := dirs_signs st in
      if a_clear a then (Triple None None 0, set_DIRSTACK [] st)
      else
        let o := if a_long a then dirstack
                 else let d := expanduser "~" in
                      map (fun i => Py.replace d "~" i) dirstack in
        let out :=
          if a_verbose a then
            let pad := String.length (Py.str (Py.len o - 1)) in
            Py.tail1 (verbose_lines pad 0 o)
          else if a_print_long a then Py.join nl o
          else Py.join " " o in
        match a_N a with
        | None => (Triple (Some (out ++ nl)) None 0, st)
        | Some N =>
            match Py.int (Py.tail1 N) with
            | None =>
                (Triple None (Some ("Invalid argument to dirs: " ++ N ++ nl)) 1, st)
            | Some num =>
                if num <? 0 then
                  (Triple None
                     (Some ("Invalid argument to dirs: " ++ Py.str (Py.len o) ++ nl)) 1, st)
                else if num >=? Py.len o then
                  (Triple None
                     (Some ("Too few elements in dirstack ("
                            ++ Py.str (Py.len o) ++ " elements)" ++ nl)) 1, st)
                else
                  let pick idx :=
                    match Py.getitem idx o with
                    | Some out => (Triple (Some (out ++ nl)) None 0, st)
                    | None => (Uncaught "IndexError", st)
                    end in
                  if Py.startswith BACKWARD N then pick num
                  else if Py.startswith FORWARD N then pick (Py.len o - 1 - num)
                  else
                    (Triple None (Some ("Invalid argument to dirs: " ++ N ++ nl)) 1, st)
            end
        end
  end.

(** *** pushd *)

Definition pushd_signs (st : State W) : string * string :=
  if PUSHD_MINUS st then ("-", "+") else ("+", "-").

(** The first half of [pushd]: the rotation target ([new_pwd], possibly
    [None]) and the stack once the addressed entry has been popped, or the
    early return. *)
Definition pushd_target (a : PushdArgs) (st : State W)
  : Result + (option string * list string) :=
  let '(BACKWARD, FORWARD) := pushd_signs st in
  let stack := DIRSTACK st in
  match a_dir a with
  | None =>
      match Py.pop 0 stack with
      | Some (new_pwd, stack') => inr (Some new_pwd, stack')
      | None => inl (Triple None (Some ("pushd: Directory stack is empty" ++ nl)) 1)
      end
  | Some dir =>
      if path_isdir sys (world st) dir then inr (Some dir, stack)
      else
        let invalid :=
          Triple None (Some ("Invalid argument to pushd: " ++ dir ++ nl)) 1 in
        match Py.int (Py.tail1 dir) with
        | None => inl invalid
        | Some num =>
            if num <? 0 then inl invalid
            else if num >? Py.len stack then
              inl (Triple None
                     (Some ("Too few elements in dirstack ("
                            ++ Py.str (Py.len stack) ++ " elements)" ++ nl)) 1)
            else if Py.startswith FORWARD dir then
              if num =? Py.len stack then inr (None, stack)
              else
                match Py.pop (Py.len stack - 1 - num) stack with
                | Some (new_pwd, stack') => inr (Some new_pwd, stack')
                | None => inl (Uncaught "IndexError")
                end
            else if Py.startswith BACKWARD dir then
              if num =? 0 then inr (None, stack)
              else
                match Py.pop (num - 1) stack with
                | Some (new_pwd, stack') => inr (Some new_pwd, stack')
                | None => inl (Uncaught "IndexError")
                end
            else inl invalid
        end
  end.

(** [if len(DIRSTACK) > maxsize: DIRSTACK = DIRSTACK[:maxsize]] *)
Definition truncate (st : State W) : State W :=
  let maxsize := DIRSTACK_SIZE st in
  if Py.len (DIRSTACK st) >? maxsize
  then set_DIRSTACK (Py.slice_to maxsize (DIRSTACK st)) st
  else st.

(** The stack and directory update of [pushd] for a target, before the
    truncation. *)
Definition pushd_apply (a : PushdArgs) (new_pwd : option string)
    (stack : list string) (st : State W) : State W :=
  let pwd := PWD st in
  match new_pwd with
  | Some t =>
      if a_cd a
      then change_working_directory t (set_DIRSTACK (expanduser pwd :: stack) st)
      else set_DIRSTACK (expanduser t :: stack) st
  | None => set_DIRSTACK stack st
  end.

Definition pushd (args : list string) (st : State W) : Result * State W :=
  match pushd_parse_args sys args with
  | None => (Triple None None 1, st)
  | Some a =>
      match pushd_target a st with
      | inl r => (r, st)
      | inr (new_pwd, stack) =>
          let st := truncate (pushd_apply a new_pwd stack st) in
          if negb (a_quiet a) && negb (PUSHD_SILENT st)
          then dirs [] st
          else (Triple None None 0, st)
      end
  end.

(** *** popd *)

(** The first half of [popd]: the directory-change target (if any) and
    the stack after the removal, or the early return. *)
Definition popd_target (a : PushdArgs) (st : State W)
  : Result + (option string * list string) :=
  let '(BACKWARD, FORWARD) := dirs_signs st in
  let stack := DIRSTACK st in
  let pop_front :=
    match Py.pop 0 stack with
    | Some (new_pwd, stack') => inr (Some new_pwd, stack')
    | None => inl (Uncaught "IndexError")
    end in
  let pop_inner i :=
    match Py.pop i stack with
    | Some (_, stack') => inr (None, stack')
    | None => inl (Uncaught "IndexError")
    end in
  match a_dir a with
  | None =>
      match Py.pop 0 stack with
      | Some (new_pwd, stack') => inr (Some new_pwd, stack')
      | None => inl (Triple None (Some ("popd: Directory stack is empty" ++ nl)) 1)
      end
  | Some dir =>
      let invalid :=
        Triple None (Some ("Invalid argument to popd: " ++ dir ++ nl)) 1 in
      match Py.int (Py.tail1 dir) with
      | None => inl invalid
      | Some num =>
          if num <? 0 then inl invalid
          else if num >? Py.len stack then
            inl (Triple None
                   (Some ("Too few elements in dirstack ("
                          ++ Py.str (Py.len stack) ++ " elements)" ++ nl)) 1)
          else if Py.startswith FORWARD dir then
            if num =? Py.len stack then pop_front
            else pop_inner (Py.len stack - 1 - num)
          else if Py.startswith BACKWARD dir then
            if num =? 0 then pop_front
            else pop_inner (num - 1)
          else inl invalid
      end
  end.

Definition popd (args : list string) (st : State W) : Result * State W :=
  match pushd_parse_args sys args with
  | None => (Triple None None 1, st)
  | Some a =>
      match popd_target a st with
      | inl r => (r, st)
      | inr (new_pwd, stack) =>
          let st := set_DIRSTACK stack st in
          let st :=
            match new_pwd with
            | Some t => if a_cd a then change_working_directory t st else st
            | None => st
            end in
          if negb (a_quiet a) && negb (PUSHD_SILENT st)
          then dirs [] st
          else (Triple None None 0, st)
      end
  end.

(** *** cd *)

(** The first half of [cd]: the destination [d], or the early return. *)
Definition cd_resolve (args : list string) (st : State W) : Result + string :=
  let oldpwd := OLDPWD st in
  match args with
  | [] => inr (expanduser "~")
  | [arg] =>
      let d := expanduser arg in
      if negb (path_isdir sys (world st) d) then
        if String.eqb d "-" then
          match oldpwd with
          | Some o => inr o
          | None =>
              inl (Triple (Some EmptyString)
                     (Some ("cd: no previous directory stored" ++ nl)) 1)
          end
        else if Py.startswith "-" d then
          let invalid :=
            Triple (Some EmptyString)
              (Some ("cd: Invalid destination: " ++ d ++ nl)) 1 in
          match Py.int (Py.tail1 d) with
          | None => inl invalid
          | Some num =>
              if num =? 0 then inl (Triple None None 0)
              else if num <? 0 then inl invalid
              else if num >? Py.len (DIRSTACK st) then
                inl (Triple (Some EmptyString)
                       (Some ("cd: Too few elements in dirstack ("
                              ++ Py.str (Py.len (DIRSTACK st)) ++ " elements)" ++ nl)) 1)
              else
                match Py.getitem (num - 1) (DIRSTACK st) with
                | Some e => inr e
                | None => inl (Uncaught "IndexError")
                end
          end
        else inr (try_cdpath d st)
      else inr d
  | _ =>
      inl (Triple (Some EmptyString)
             (Some ("cd takes 0 or 1 arguments, not " ++ Py.str (Py.len args) ++ nl)) 1)
  end.

(** The second half of [cd]: validation of [d], the silent push under
    [AUTO_PUSHD], and the change of directory. *)
Definition cd_enter (d : string) (st : State W) : Result * State W :=
  let cwd := PWD st in
  if negb (path_exists sys (world st) d) then
    (Triple (Some EmptyString)
       (Some ("cd: no such file or directory: " ++ d ++ nl)) 1, st)
  else if negb (path_isdir sys (world st) d) then
    (Triple (Some EmptyString) (Some ("cd: " ++ d ++ " is not a directory" ++ nl)) 1, st)
  else if negb (access_X_OK sys (world st) d) then
    (Triple (Some EmptyString) (Some ("cd: permission denied: " ++ d ++ nl)) 1, st)
  else
    (* now, push the directory onto the dirstack if AUTO_PUSHD is set *)
    let pushed :=
      if AUTO_PUSHD st then pushd ["-n"; "-q"; cwd] st
      else (Triple None None 0, st) in
    match fst pushed with
    | Uncaught e => (Uncaught e, snd pushed)
    | _ => (Triple None None 0, change_working_directory d (snd pushed))
    end.

Definition cd (args : list string) (st : State W) : Result * State W :=
  match cd_resolve args st with
  | inl r => (r, st)
  | inr d => cd_enter d st
  end.

End Dirstack.

(** ** A POSIX instance of the collaborators

    A small file system: the directories and files that exist (by absolute
    normalised path), the paths without search permission, the directories
    [os.chdir] can enter, and the cwd of the process.  The argument parser
    is a stand-in for [argparse]: it agrees with it on flags given one per
    token, on at most one positional (numbers with a leading dash
    included) and on unknown options, which is all the examples use. *)

Module Posix.

Record World := mkWorld {
  w_dirs : list string;
  w_files : list string;
  w_noexec : list string;
  w_enter : list string;
  w_cwd : string
}.

Definition home : string := "/home/u".

Definition mem (p : string) (l : list string) : bool :=
  existsb (String.eqb p) l.

Definition isabs (p : string) : bool := Py.startswith "/" p.

(** [posixpath.join] of two components *)
Definition join (a b : string) : string :=
  if Py.startswith "/" b then b
  else if String.eqb a EmptyString || Py.endswith "/" a then a ++ b
  else a ++ "/" ++ b.

(** [s.split('/')] *)
Fixpoint split (s : string) : list string :=
  match s with
  | EmptyString => [EmptyString]
  | String c r =>
      if Ascii.eqb c "/"%char then EmptyString :: split r
      else match split r with
           | h :: t => String c h :: t
           | [] => [String c EmptyString]
           end
  end.

(** The loop of [posixpath.normpath]; [acc] is [new_comps] reversed. *)
Fixpoint norm_comps (initial_slashes : bool) (acc comps : list string) : list string :=
  match comps with
  | [] => rev acc
  | comp :: rest =>
      if String.eqb comp EmptyString || String.eqb comp "." then
        norm_comps initial_slashes acc rest
      else if negb (String.eqb comp "..")
              || (negb initial_slashes && match acc with [] => true | _ => false end)
              || match acc with top :: _ => String.eqb top ".." | [] => false end
      then norm_comps initial_slashes (comp :: acc) rest
      else norm_comps initial_slashes (List.tl acc) rest
  end.

Definition normpath (path : string) : string :=
  match path with
  | EmptyString => "."
  | _ =>
      let initial := Py.startswith "/" path in
      let lead :=
        if initial then
          (if Py.startswith "//" path && negb (Py.startswith "///" path)
           then "//" else "/")
        else EmptyString in
      match lead ++ Py.join "/" (norm_comps initial [] (split path)) with
      | EmptyString => "."
      | p => p
      end
  end.

Definition abspath (w : World) (path : string) : string :=
  normpath (if isabs path then path else join (w_cwd w) path).

(** [posixpath.basename]: what follows the last slash. *)
Definition basename (p : string) : string := last (split p) EmptyString.

(** [~] and [~/...] expand to the home directory; no other user is known. *)
Definition expand_tilde (p : string) : string :=
  let rest := Py.tail1 p in
  if String.eqb rest EmptyString || Py.startswith "/" rest then home ++ rest else p.

Definition isdir (w : World) (p : string) : bool := mem (abspath w p) (w_dirs w).

Definition exists_ (w : World) (p : string) : bool :=
  isdir w p || mem (abspath w p) (w_files w).

Definition access (w : World) (p : string) : bool :=
  exists_ w p && negb (mem (abspath w p) (w_noexec w)).

Definition enter (w : World) (p : string) : option World :=
  if mem (abspath w p) (w_enter w)
  then Some (mkWorld (w_dirs w) (w_files w) (w_noexec w) (w_enter w) (abspath w p))
  else None.

(** No wildcards: a pattern matches itself when it exists. *)
Definition glob (w : World) (pat : string) : list string :=
  if exists_ w pat then [pat] else [].

Definition all_digits (s : string) : bool :=
  forallb Py.is_digit (list_ascii_of_string s).

(** A token that [argparse] takes for an option: a dash followed by
    something that is not a number. *)
Definition is_option (tok : string) : bool :=
  match tok with
  | String "-"%char (String c r) => negb (all_digits (String c r))
  | _ => false
  end.

Fixpoint parse_pushd (toks : list string) (a : PushdArgs) : option PushdArgs :=
  match toks with
  | [] => Some a
  | tok :: rest =>
      if String.eqb tok "-n" then parse_pushd rest (mkPushdArgs (a_dir a) false (a_quiet a))
      else if String.eqb tok "-q" then parse_pushd rest (mkPushdArgs (a_dir a) (a_cd a) true)
      else if is_option tok then None
      else match a_dir a with
           | None => parse_pushd rest (mkPushdArgs (Some tok) (a_cd a) (a_quiet a))
           | Some _ => None
           end
  end.

Fixpoint parse_dirs (toks : list string) (a : DirsArgs) : option DirsArgs :=
  match toks with
  | [] => Some a
  | tok :: rest =>
      if String.eqb tok "-c" then
        parse_dirs rest (mkDirsArgs (a_N a) true (a_print_long a) (a_verbose a) (a_long a))
      else if String.eqb tok "-p" then
        parse_dirs rest (mkDirsArgs (a_N a) (a_clear a) true (a_verbose a) (a_long a))
      else if String.eqb tok "-v" then
        parse_dirs rest (mkDirsArgs (a_N a) (a_clear a) (a_print_long a) true (a_long a))
      else if String.eqb tok "-l" then
        parse_dirs rest (mkDirsArgs (a_N a) (a_clear a) (a_print_long a) (a_verbose a) true)
      else if is_option tok then None
      else match a_N a with
           | None =>
               parse_dirs rest
                 (mkDirsArgs (Some tok) (a_clear a) (a_print_long a) (a_verbose a) (a_long a))
           | Some _ => None
           end
  end.

Definition sys : Sys World :=
  mkSys World "/" join abspath basename expand_tilde isdir exists_ access enter
    (fun p => p) glob
    (fun toks => parse_pushd toks (mkPushdArgs None true false))
    (fun toks => parse_dirs toks (mkDirsArgs None false false false false))
    eq_refl eq_refl.

(** A world with directories [/p], [/a], [/b], [/c], [/d], [/home/u] and
    [/mnt/home/u/x], all of which can be entered except [/d]; the
    directory [/gone] no longer exists. *)
Definition w0 : World :=
  mkWorld ["/"; "/p"; "/a"; "/b"; "/c"; "/d"; "/home/u"; "/mnt/home/u/x"; "/p/sub"] [] []
    ["/"; "/p"; "/a"; "/b"; "/c"; "/home/u"; "/mnt/home/u/x"; "/p/sub"] "/p".

(** [PWD] is [/p], the stack is [stack], every flag is off. *)
Definition st0 (stack : list string) : State World :=
  mkState "/p" None [] false false false 20 stack w0 [].

(** A full stack: [DIRSTACK_SIZE] is 2 and [AUTO_PUSHD] is on. *)
Definition st_full : State World :=
  mkState "/p" None [] true false false 2 ["/a"; "/b"] w0 [].

(** [PWD] names a directory that was removed under the process. *)
Definition st_gone : State World :=
  mkState "/gone" None [] false false false 20 ["/b"] w0 [].

(** The home directory occurs inside [PWD], not at its start. *)
Definition st_mnt : State World :=
  mkState "/mnt/home/u/x" None [] false false false 20 ["/home/u/y"] w0 [].

(** [AUTO_PUSHD] is on, the stack is empty. *)
Definition st_auto : State World :=
  mkState "/p" None [] true false false 20 [] w0 [].

End Posix.

(** ** Vocabulary of the statements *)

(** A decimal numeral: a non-empty string of digits, and its value. *)
Fixpoint all_digits (s : string) : bool :=
  match s with
  | EmptyString => true
  | String c r => Py.is_digit c && all_digits r
  end.

Fixpoint digits_value (acc : Z) (s : string) : Z :=
  match s with
  | EmptyString => acc
  | String c r => digits_value (10 * acc + Py.digit_val c) r
  end.

Definition numeral (s : string) : Prop := s <> EmptyString /\ all_digits s = true.

Definition numeral_value (s : string) : Z := digits_value 0 s.

(** The sign-indexed token [+N] or [-N]. *)
Definition sign_token (plus : bool) (ds : string) : string :=
  String (if plus then "+"%char else "-"%char) ds.

(** The three-element results. *)
Definition is_triple (r : Result) : Prop :=
  match r with
  | Triple _ _ _ => True
  | _ => False
  end.

(** The stack respects the configured bound. *)
Definition bounded {W} (st : State W) : Prop :=
  Py.len (DIRSTACK st) <= DIRSTACK_SIZE st.

Section Vocabulary.
Context {W : Type} (sys : Sys W).

(** The rotation target [pushd] produces, if any. *)
Definition rotation_target (a : PushdArgs) (st : State W) : option string :=
  match pushd_target sys a st with
  | inr (new_pwd, _) => new_pwd
  | inl _ => None
  end.

(** [dir] is given and names an existing directory. *)
Definition names_directory (a : PushdArgs) (st : State W) : bool :=
  match a_dir a with
  | Some d => path_isdir sys (world st) d
  | None => false
  end.


(** [d] passes the three checks of [cd]. *)
Definition enterable (d : string) (st : State W) : Prop :=
  path_exists sys (world st) d = true /\
  path_isdir sys (world st) d = true /\
  access_X_OK sys (world st) d = true.

(** The absolute path [_change_working_directory(d)] hands to
    [os.chdir]. *)
Definition chdir_target (d : string) (st : State W) : string :=
  path_abspath sys (world st) (path_join sys (PWD st) d).

(** *** Sentences of the specification, as they are worded *)

(** A successful [pushd] without [-n] leaves
    [min(previous_length + 1, DIRSTACK_SIZE)] entries and [PWD] equal to
    the rotation target. *)
Definition pushd_grows_by_one (args : list string) (st : State W) : Prop :=
  forall a out err,
    pushd_parse_args sys args = Some a -> a_cd a = true ->
    fst (pushd sys args st) = Triple out err 0 ->
    let st' := snd (pushd sys args st) in
    Py.len (DIRSTACK st') = Z.min (Py.len (DIRSTACK st) + 1) (DIRSTACK_SIZE st) /\
    (forall t, rotation_target a st = Some t -> PWD st' = t).


(** [pushd] of an existing directory, then [popd] with no arguments,
    restores [PWD] and the stack when nothing was truncated. *)
Definition pushd_popd_restores (args : list string) (st : State W) : Prop :=
  forall a d out err,
    pushd_parse_args sys args = Some a -> a_dir a = Some d ->
    path_isdir sys (world st) d = true ->
    Py.len (DIRSTACK st) < DIRSTACK_SIZE st ->
    fst (pushd sys args st) = Triple out err 0 ->
    let st2 := snd (popd sys [] (snd (pushd sys args st))) in
    PWD st2 = PWD st /\ DIRSTACK st2 = DIRSTACK st.

(** [cd +0] and [cd -0], when no directory has that name, succeed and
    change nothing. *)
Definition cd_index_zero_noop (st : State W) : Prop :=
  forall plus ds,
    numeral ds -> numeral_value ds = 0 ->
    path_isdir sys (world st) (sign_token plus ds) = false ->
    cd sys [sign_token plus ds] st = (Triple None None 0, st).

(** A validated target whose [os.chdir] fails (and whose path does not
    end in [..]): exit code 0, nothing changed, nothing fired. *)
Definition cd_failure_changes_nothing (args : list string) (st : State W) : Prop :=
  forall d,
    cd_resolve sys args st = inr d -> enterable d st ->
    chdir sys (world st) (chdir_target d st) = None ->
    path_basename sys (fallback_path sys d st) <> ".." ->
    let st' := snd (cd sys args st) in
    fst (cd sys args st) = Triple None None 0 /\
    PWD st' = PWD st /\ OLDPWD st' = OLDPWD st /\
    DIRSTACK st' = DIRSTACK st /\ on_chdir st' = on_chdir st.

End Vocabulary.

(** ** Further vocabulary *)

(** A result with exit code 0. *)
Definition succeeded (r : Result) : Prop :=
  match r with
  | Triple _ _ 0 => True
  | _ => False
  end.

(** What [l.pop(k)] leaves of [l]. *)
Definition remove_at {A} (k : nat) (l : list A) : list A :=
  (firstn k l ++ skipn (S k) l)%list.

Section Listing.
Context {W : Type} (sys : Sys W).


(** The event a command has to fire for the change of [PWD] between two
    states. *)
Definition pwd_events (st st' : State W) : list (string * string) :=
  if String.eqb (PWD st) (PWD st') then [] else [(PWD st, PWD st')].

(** No root of [cdpaths] has a match for [apath]. *)
Definition no_match (w : W) (cdpaths : list string) (apath : string) : Prop :=
  forall cdp, In cdp cdpaths ->
    iglob sys w (expand_path sys (path_join sys cdp apath)) = [].

(** [-n] keeps [pushd] from changing directory, whatever the current
    directory is called. *)
Definition n_flag_respected : Prop :=
  forall cwd a, pushd_parse_args sys ["-n"; "-q"; cwd] = Some a -> a_cd a = false.

End Listing.

(** [PWD] is [/p], the previous directory was [/a]. *)
Definition st_back : State Posix.World :=
  mkState "/p" (Some "/a") [] false false false 20 ["/b"] Posix.w0 [].

(** A stack of two that is full, with [/c] a third existing directory. *)
Definition st_two : State Posix.World :=
  mkState "/p" None [] false false false 2 ["/a"; "/b"] Posix.w0 [].

(** Two search roots for [CDPATH]; only [/p] has a [sub]. *)
Definition st_cdpath : State Posix.World :=
  mkState "/a" None ["/b"; "/p"; "/"] false false false 20 []
    (Posix.mkWorld (Posix.w_dirs Posix.w0) [] [] (Posix.w_enter Posix.w0) "/a") [].

(** ** Worked examples *)

Example replace_every_occurrence : Py.replace "ab" "~" "xabyabab" = "x~y~~".
Proof. reflexivity. Qed.

Example replace_empty_pattern : Py.replace EmptyString "~" "abc" = "~a~b~c~".
Proof. reflexivity. Qed.

Example int_strips_blanks : Py.int " 12 " = Some 12.
Proof. reflexivity. Qed.

Example int_negative : Py.int "-3" = Some (-3).
Proof. reflexivity. Qed.

Example int_rejects_empty : Py.int EmptyString = None.
Proof. reflexivity. Qed.

Example int_rejects_letters : Py.int "x1" = None.
Proof. reflexivity. Qed.

Example str_of_twelve : Py.str 12 = "12".
Proof. reflexivity. Qed.

Example pop_middle : Py.pop 1 ["a"; "b"; "c"] = Some ("b", ["a"; "c"]).
Proof. reflexivity. Qed.

Example slice_negative_bound : Py.slice_to (-1) ["a"; "b"; "c"] = ["a"; "b"].
Proof. reflexivity. Qed.

Example normpath_dots : Posix.normpath "/a/../b//c/." = "/b/c".
Proof. reflexivity. Qed.

(** [DIRSTACK_SIZE = 2], stack [[/a, /b]], [pushd /c]: [/b] is evicted. *)
Example pushd_evicts_tail :
  let st := mkState "/p" None [] false false false 2 ["/a"; "/b"] Posix.w0 [] in
  let st' := snd (pushd Posix.sys ["/c"] st) in
  DIRSTACK st' = ["/p"; "/a"] /\ PWD st' = "/c".
Proof. split; reflexivity. Qed.

(** [popd] on an empty stack. *)
Example popd_empty :
  fst (popd Posix.sys [] (Posix.st0 [])) =
  Triple None (Some ("popd: Directory stack is empty" ++ nl)) 1.
Proof. reflexivity. Qed.

(** [popd +0] on an empty stack reaches [DIRSTACK.pop(0)] outside any
    [try]. *)
Example popd_plus0_empty :
  fst (popd Posix.sys ["+0"] (Posix.st0 [])) = Uncaught "IndexError".
Proof. reflexivity. Qed.

(** ** Properties of the built-ins *)

Lemma len_nonneg {A} (l : list A) : 0 <= Py.len l.
Proof. unfold Py.len. lia. Qed.

Lemma len_cons {A} (x : A) (l : list A) : Py.len (x :: l) = Py.len l + 1.
Proof. unfold Py.len. simpl length. lia. Qed.

Lemma pop_len {A} (i : Z) (l : list A) x l' :
  Py.pop i l = Some (x, l') -> Py.len l' = Py.len l - 1.
Proof.
  unfold Py.pop, Py.index.
  destruct ((0 <=? _) && _) eqn:Hr; [|discriminate].
  apply andb_prop in Hr as [H0 H1].
  apply Z.leb_le in H0. apply Z.ltb_lt in H1.
  set (j := if i <? 0 then i + Py.len l else i) in *.
  destruct (nth_error l (Z.to_nat j)) eqn:Hn; [|discriminate].
  intros [= <- <-].
  assert (Hlt : (Z.to_nat j < length l)%nat)
    by (apply nth_error_Some; rewrite Hn; discriminate).
  unfold Py.len in *. rewrite length_app, length_firstn.
  change (match l with [] => [] | _ :: l0 => skipn (Z.to_nat j) l0 end)
    with (skipn (S (Z.to_nat j)) l).
  rewrite length_skipn. lia.
Qed.

Lemma pop_front {A} (x : A) (l : list A) : Py.pop 0 (x :: l) = Some (x, l).
Proof.
  unfold Py.pop, Py.index. rewrite len_cons.
  pose proof (len_nonneg l).
  replace (0 <? 0) with false by reflexivity.
  replace (0 <=? 0) with true by reflexivity.
  replace (0 <? Py.len l + 1) with true by (symmetry; apply Z.ltb_lt; lia).
  reflexivity.
Qed.

Lemma pop_in_range {A} (i : Z) (l : list A) :
  0 <= i < Py.len l -> exists x l', Py.pop i l = Some (x, l').
Proof.
  intros Hi. unfold Py.pop, Py.index.
  replace (i <? 0) with false by (symmetry; apply Z.ltb_ge; lia).
  replace (0 <=? i) with true by (symmetry; apply Z.leb_le; lia).
  replace (i <? Py.len l) with true by (symmetry; apply Z.ltb_lt; lia).
  simpl. destruct (nth_error l (Z.to_nat i)) eqn:Hn.
  - eauto.
  - apply nth_error_None in Hn. unfold Py.len in Hi. lia.
Qed.

Lemma slice_to_firstn {A} (m : Z) (l : list A) :
  0 <= m -> Py.slice_to m l = firstn (Z.to_nat m) l.
Proof.
  intros Hm. unfold Py.slice_to.
  replace (m <? 0) with false by (symmetry; apply Z.ltb_ge; lia).
  reflexivity.
Qed.

Lemma slice_to_len {A} (m : Z) (l : list A) :
  0 <= m -> Py.len (Py.slice_to m l) = Z.min m (Py.len l).
Proof.
  intros Hm. rewrite slice_to_firstn by assumption.
  unfold Py.len. rewrite length_firstn. lia.
Qed.

Lemma digit_not_space (c : ascii) : Py.is_digit c = true -> Py.is_space c = false.
Proof.
  destruct c as [[] [] [] [] [] [] [] []]; intros H; try reflexivity; discriminate H.
Qed.

Lemma lstrip_numeral (s : string) : all_digits s = true -> Py.lstrip s = s.
Proof.
  destruct s as [|c r]; simpl; [reflexivity|].
  intros H. apply andb_prop in H as [Hc _].
  rewrite (digit_not_space _ Hc). reflexivity.
Qed.

Lemma rstrip_numeral (s : string) : all_digits s = true -> Py.rstrip s = s.
Proof.
  induction s as [|c r IH]; simpl; [reflexivity|].
  intros H. apply andb_prop in H as [Hc Hr].
  rewrite (IH Hr). destruct r; [|reflexivity].
  rewrite (digit_not_space _ Hc). reflexivity.
Qed.

Lemma int_digits_numeral (s : string) :
  all_digits s = true ->
  forall acc prev, prev = true \/ s <> EmptyString ->
  Py.int_digits acc prev s = Some (digits_value acc s).
Proof.
  induction s as [|c r IH]; cbn [all_digits digits_value Py.int_digits];
    intros Hs acc prev Hp.
  - destruct Hp as [-> | Hp]; [reflexivity | congruence].
  - apply andb_prop in Hs as [Hc Hr]. rewrite Hc.
    apply IH; auto.
Qed.

Lemma count_digits_numeral (s : string) :
  all_digits s = true -> Py.count_digits s = Z.of_nat (String.length s).
Proof.
  induction s as [|c r IH]; cbn [all_digits Py.count_digits String.length];
    [reflexivity|].
  intros H. apply andb_prop in H as [Hc Hr]. rewrite Hc, (IH Hr). lia.
Qed.

(** [int()] of a numeral that is within the digit limit is its value. *)
Lemma int_numeral (ds : string) :
  numeral ds -> Z.of_nat (String.length ds) <= Py.int_max_str_digits ->
  Py.int ds = Some (numeral_value ds).
Proof.
  intros [Hne Hd] Hl. unfold Py.int.
  rewrite (lstrip_numeral _ Hd), (rstrip_numeral _ Hd).
  destruct ds as [|c r]; [congruence|].
  assert (Hc : Py.is_digit c = true)
    by (cbn [all_digits] in Hd; apply andb_prop in Hd; tauto).
  assert (Hgo : Py.int_unsigned (String c r) = Some (numeral_value (String c r))).
  { unfold Py.int_unsigned. rewrite (count_digits_numeral _ Hd).
    replace (_ >? _) with false
      by (symmetry; rewrite Z.gtb_ltb; apply Z.ltb_ge; exact Hl).
    apply int_digits_numeral; auto; right; discriminate. }
  destruct c as [[] [] [] [] [] [] [] []]; try discriminate Hc; exact Hgo.
Qed.

(** Beyond the limit [int()] raises, whatever the digits are. *)
Lemma int_beyond_limit (ds : string) :
  all_digits ds = true -> Py.int_max_str_digits < Z.of_nat (String.length ds) ->
  Py.int ds = None.
Proof.
  intros Hd Hl. unfold Py.int.
  rewrite (lstrip_numeral _ Hd), (rstrip_numeral _ Hd).
  assert (Hgo : Py.int_unsigned ds = None).
  { unfold Py.int_unsigned. rewrite (count_digits_numeral _ Hd).
    replace (_ >? _) with true
      by (symmetry; rewrite Z.gtb_ltb; apply Z.ltb_lt; exact Hl).
    reflexivity. }
  destruct ds as [|c r]; [exact Hgo|].
  assert (Hc : Py.is_digit c = true)
    by (cbn [all_digits] in Hd; apply andb_prop in Hd; tauto).
  destruct c as [[] [] [] [] [] [] [] []]; try discriminate Hc; exact Hgo.
Qed.

Lemma digits_value_nonneg (s : string) :
  forall acc, all_digits s = true -> 0 <= acc -> 0 <= digits_value acc s.
Proof.
  induction s as [|c r IH]; cbn [all_digits digits_value]; intros acc Hd Ha;
    [assumption|].
  apply andb_prop in Hd as [Hc Hr]. apply IH; [assumption|].
  assert (0 <= Py.digit_val c)
    by (destruct c as [[] [] [] [] [] [] [] []]; try discriminate Hc;
        unfold Py.digit_val; simpl; lia).
  lia.
Qed.

Lemma numeral_value_nonneg (ds : string) : all_digits ds = true -> 0 <= numeral_value ds.
Proof. intros Hd. apply digits_value_nonneg; [assumption | lia]. Qed.

(** ** The working-directory mutator *)

Section Mutator.
Context {W : Type} (sys : Sys W).

Local Ltac cwd_cases :=
  unfold change_working_directory;
  repeat match goal with
         | |- context [match ?x with _ => _ end] => destruct x eqn:?
         end.

(** Only [PWD], [OLDPWD], the operating system and the event log are
    touched. *)
Lemma cwd_frame (d : string) (st : State W) :
  let st' := change_working_directory sys d st in
  DIRSTACK st' = DIRSTACK st /\ DIRSTACK_SIZE st' = DIRSTACK_SIZE st /\
  PUSHD_SILENT st' = PUSHD_SILENT st /\ PUSHD_MINUS st' = PUSHD_MINUS st /\
  AUTO_PUSHD st' = AUTO_PUSHD st /\ CDPATH st' = CDPATH st.
Proof. cwd_cases; repeat split; reflexivity. Qed.

Lemma cwd_DIRSTACK (d : string) (st : State W) :
  DIRSTACK (change_working_directory sys d st) = DIRSTACK st.
Proof. apply cwd_frame. Qed.

Lemma cwd_DIRSTACK_SIZE (d : string) (st : State W) :
  DIRSTACK_SIZE (change_working_directory sys d st) = DIRSTACK_SIZE st.
Proof. apply cwd_frame. Qed.

Lemma cwd_PUSHD_SILENT (d : string) (st : State W) :
  PUSHD_SILENT (change_working_directory sys d st) = PUSHD_SILENT st.
Proof. apply cwd_frame. Qed.

(** The system call succeeds: [PWD] is the absolute new path and
    [OLDPWD] the previous [PWD]. *)
Lemma cwd_success (d : string) (st : State W) (w' : W) :
  chdir sys (world st) (path_abspath sys (world st) (path_join sys (PWD st) d)) = Some w' ->
  let st' := change_working_directory sys d st in
  PWD st' = path_abspath sys (world st) (path_join sys (PWD st) d) /\
  OLDPWD st' = Some (PWD st) /\ world st' = w'.
Proof.
  intros Hc. unfold change_working_directory. rewrite Hc.
  destruct (negb _); repeat split; reflexivity.
Qed.

(** The system call fails and the path does not end in [..]: nothing
    changes at all. *)
Lemma cwd_failure (d : string) (st : State W) :
  chdir sys (world st) (path_abspath sys (world st) (path_join sys (PWD st) d)) = None ->
  path_basename sys (fallback_path sys d st) <> ".." ->
  change_working_directory sys d st = st.
Proof.
  intros Hc Hb. unfold change_working_directory. rewrite Hc.
  fold (fallback_path sys d st).
  apply String.eqb_neq in Hb. rewrite Hb.
  rewrite String.eqb_refl. reflexivity.
Qed.

(** C8. One call of the mutator appends exactly one [on_chdir] event,
    carrying the old and the new [PWD], when the value of [PWD] has
    changed, and appends nothing when [PWD] is the same as before. *)
Theorem change_working_directory_notifies (newdir : string) (st : State W) :
  let st' := change_working_directory sys newdir st in
  on_chdir st' =
  (on_chdir st ++
     (if String.eqb (PWD st) (PWD st') then [] else [(PWD st, PWD st')]))%list.
Proof.
  unfold change_working_directory.
  set (st1 := match chdir sys _ _ with Some _ => _ | None => _ end).
  assert (Hlog : on_chdir st1 = on_chdir st)
    by (subst st1; repeat match goal with
                          | |- context [match ?x with _ => _ end] => destruct x
                          end; reflexivity).
  cbv zeta. destruct (String.eqb (PWD st) (PWD st1)) eqn:He; cbn [negb].
  - rewrite He, Hlog, app_nil_r. reflexivity.
  - cbn [fire PWD on_chdir]. rewrite He, Hlog. reflexivity.
Qed.

End Mutator.

(** ** The stack operations *)

Section Stack.
Context {W : Type} (sys : Sys W).

(** [dirs] changes nothing but the stack, and the stack only to clear
    it. *)
Lemma dirs_state (args : list string) (st : State W) :
  snd (dirs sys args st) = st \/ snd (dirs sys args st) = set_DIRSTACK [] st.
Proof.
  unfold dirs.
  repeat match goal with
         | |- context [match ?x with _ => _ end] => destruct x
         end; auto.
Qed.

(** The listing [pushd] and [popd] end with. *)
Lemma dirs_nil (st : State W) :
  exists out, dirs sys [] st = (Triple (Some out) None 0, st).
Proof.
  unfold dirs. rewrite (dirs_parse_nil sys).
  unfold dirs_signs. destruct (PUSHD_MINUS st); cbn; eauto.
Qed.

Lemma dirs_bounded (args : list string) (st : State W) :
  bounded st -> bounded (snd (dirs sys args st)).
Proof.
  intros Hb. destruct (dirs_state args st) as [-> | ->]; [assumption|].
  unfold bounded in *. cbn. pose proof (len_nonneg (DIRSTACK st)). lia.
Qed.

Lemma truncate_frame (st : State W) :
  PWD (truncate st) = PWD st /\ OLDPWD (truncate st) = OLDPWD st /\
  DIRSTACK_SIZE (truncate st) = DIRSTACK_SIZE st /\
  PUSHD_SILENT (truncate st) = PUSHD_SILENT st /\
  world (truncate st) = world st /\ on_chdir (truncate st) = on_chdir st.
Proof. unfold truncate. destruct (_ >? _); repeat split; reflexivity. Qed.

Lemma truncate_id (st : State W) : bounded st -> truncate st = st.
Proof.
  unfold bounded, truncate. intros Hb.
  replace (_ >? _) with false; [reflexivity|].
  symmetry. rewrite Z.gtb_ltb. apply Z.ltb_ge. assumption.
Qed.

(** With a non-negative bound the truncation keeps the first
    [DIRSTACK_SIZE] entries: the overflow is dropped from the tail. *)
Lemma truncate_firstn (st : State W) :
  0 <= DIRSTACK_SIZE st ->
  DIRSTACK (truncate st) = firstn (Z.to_nat (DIRSTACK_SIZE st)) (DIRSTACK st).
Proof.
  intros Hs. unfold truncate. destruct (_ >? _) eqn:Hgt; cbn.
  - apply slice_to_firstn. assumption.
  - rewrite Z.gtb_ltb in Hgt. apply Z.ltb_ge in Hgt.
    symmetry. apply firstn_all2. unfold Py.len in Hgt. lia.
Qed.

Lemma truncate_len (st : State W) :
  0 <= DIRSTACK_SIZE st ->
  Py.len (DIRSTACK (truncate st)) = Z.min (Py.len (DIRSTACK st)) (DIRSTACK_SIZE st).
Proof.
  intros Hs. rewrite truncate_firstn by assumption.
  unfold Py.len. rewrite length_firstn. lia.
Qed.

Lemma truncate_bounded (st : State W) :
  0 <= DIRSTACK_SIZE st -> bounded (truncate st).
Proof.
  intros Hs. unfold bounded.
  rewrite truncate_len by assumption.
  destruct (truncate_frame st) as (_ & _ & -> & _). lia.
Qed.

(** The state [pushd] is left in once a target has been determined. *)
Lemma pushd_state (args : list string) (a : PushdArgs) (st : State W) new_pwd stack :
  pushd_parse_args sys args = Some a ->
  pushd_target sys a st = inr (new_pwd, stack) ->
  snd (pushd sys args st) = truncate (pushd_apply sys a new_pwd stack st).
Proof.
  intros Hp Ht. unfold pushd. rewrite Hp, Ht.
  destruct (negb _ && negb _); [|reflexivity].
  destruct (dirs_nil (truncate (pushd_apply sys a new_pwd stack st))) as [out ->].
  reflexivity.
Qed.


(** An early return of [pushd] is never exit code 0. *)
Lemma pushd_target_error (a : PushdArgs) (st : State W) r :
  pushd_target sys a st = inl r ->
  (exists err, r = Triple None (Some err) 1) \/ (exists e, r = Uncaught e).
Proof.
  unfold pushd_target, pushd_signs.
  repeat match goal with
         | |- context [match ?x with _ => _ end] => destruct x
         end; intros [= <-]; eauto.
Qed.

Lemma pushd_apply_DIRSTACK_SIZE a new_pwd stack (st : State W) :
  DIRSTACK_SIZE (pushd_apply sys a new_pwd stack st) = DIRSTACK_SIZE st.
Proof.
  unfold pushd_apply. destruct new_pwd; [destruct (a_cd a)|]; try reflexivity.
  rewrite cwd_DIRSTACK_SIZE. reflexivity.
Qed.

Lemma pushd_frame (args : list string) (st : State W) :
  DIRSTACK_SIZE (snd (pushd sys args st)) = DIRSTACK_SIZE st.
Proof.
  unfold pushd. destruct (pushd_parse_args sys args) as [a|]; [|reflexivity].
  destruct (pushd_target sys a st) as [r | [new_pwd stack]] eqn:Ht; [reflexivity|].
  set (st1 := truncate _).
  assert (H1 : DIRSTACK_SIZE st1 = DIRSTACK_SIZE st).
  { subst st1. destruct (truncate_frame (pushd_apply sys a new_pwd stack st))
      as (_ & _ & -> & _). apply pushd_apply_DIRSTACK_SIZE. }
  destruct (negb _ && negb _); [|exact H1].
  destruct (dirs_state [] st1) as [-> | ->]; exact H1.
Qed.

Lemma pushd_bounded (args : list string) (st : State W) :
  bounded st -> bounded (snd (pushd sys args st)).
Proof.
  intros Hb.
  assert (Hs : 0 <= DIRSTACK_SIZE st)
    by (unfold bounded in Hb; pose proof (len_nonneg (DIRSTACK st)); lia).
  unfold pushd. destruct (pushd_parse_args sys args) as [a|]; [|assumption].
  destruct (pushd_target sys a st) as [r | [new_pwd stack]] eqn:Ht; [assumption|].
  assert (H1 : bounded (truncate (pushd_apply sys a new_pwd stack st)))
    by (apply truncate_bounded; rewrite pushd_apply_DIRSTACK_SIZE; assumption).
  destruct (negb _ && negb _); [|exact H1].
  apply dirs_bounded. exact H1.
Qed.

End Stack.

Section Invariant.
Context {W : Type} (sys : Sys W).

(** Whenever [popd] gets past its argument checks it has removed exactly
    one entry. *)
Lemma popd_target_len (a : PushdArgs) (st : State W) new_pwd stack :
  popd_target a st = inr (new_pwd, stack) ->
  Py.len stack = Py.len (DIRSTACK st) - 1.
Proof.
  unfold popd_target, dirs_signs.
  repeat match goal with
         | |- context [match ?x with _ => _ end] => destruct x eqn:?
         end; intros [= <- <-];
    match goal with
    | H : Py.pop _ _ = Some _ |- _ => exact (pop_len _ _ _ _ H)
    end.
Qed.

Lemma popd_frame (args : list string) (st : State W) :
  DIRSTACK_SIZE (snd (popd sys args st)) = DIRSTACK_SIZE st.
Proof.
  unfold popd. destruct (pushd_parse_args sys args) as [a|]; [|reflexivity].
  destruct (popd_target a st) as [r | [new_pwd stack]]; [reflexivity|].
  set (st1 := match new_pwd with Some _ => _ | None => _ end).
  assert (H1 : DIRSTACK_SIZE st1 = DIRSTACK_SIZE st).
  { subst st1. destruct new_pwd; [destruct (a_cd a)|]; try reflexivity.
    rewrite cwd_DIRSTACK_SIZE. reflexivity. }
  destruct (negb _ && negb _); [|exact H1].
  destruct (dirs_state sys [] st1) as [-> | ->]; exact H1.
Qed.

(** The stack [popd] leaves when it gets past its argument checks and the
    final listing does not clear it. *)
Lemma popd_bounded (args : list string) (st : State W) :
  bounded st -> bounded (snd (popd sys args st)).
Proof.
  intros Hb. unfold popd.
  destruct (pushd_parse_args sys args) as [a|]; [|assumption].
  destruct (popd_target a st) as [r | [new_pwd stack]] eqn:Ht; [assumption|].
  apply popd_target_len in Ht.
  set (st1 := match new_pwd with Some _ => _ | None => _ end).
  assert (H1 : bounded st1).
  { subst st1. unfold bounded in *.
    destruct new_pwd; [destruct (a_cd a)|];
      rewrite ?cwd_DIRSTACK, ?cwd_DIRSTACK_SIZE; cbn; lia. }
  destruct (negb _ && negb _); [|exact H1].
  apply dirs_bounded. exact H1.
Qed.

Lemma cd_enter_bounded (d : string) (st : State W) :
  bounded st -> bounded (snd (cd_enter sys d st)).
Proof.
  intros Hb. unfold cd_enter.
  destruct (negb (path_exists _ _ _)); [assumption|].
  destruct (negb (path_isdir _ _ _)); [assumption|].
  destruct (negb (access_X_OK _ _ _)); [assumption|].
  set (pushed := if AUTO_PUSHD st then _ else _).
  assert (Hp : bounded (snd pushed))
    by (subst pushed; destruct (AUTO_PUSHD st); [apply pushd_bounded|]; assumption).
  destruct (fst pushed); cbn [snd]; try assumption;
    unfold bounded; rewrite cwd_DIRSTACK, cwd_DIRSTACK_SIZE; exact Hp.
Qed.

Lemma cd_bounded (args : list string) (st : State W) :
  bounded st -> bounded (snd (cd sys args st)).
Proof.
  intros Hb. unfold cd. destruct (cd_resolve sys args st); [assumption|].
  apply cd_enter_bounded. assumption.
Qed.

(** C6. If the stack holds at most [DIRSTACK_SIZE] entries before a call
    of [cd], [pushd], [popd] or [dirs], it holds at most [DIRSTACK_SIZE]
    entries after it, and the overflow is dropped from the tail: the stack
    [pushd] leaves is the first [DIRSTACK_SIZE] entries of the stack it has
    built (the pushed path in front of what is left of the old stack), the
    stack [cd] leaves is the old one, or under [AUTO_PUSHD] the one its
    silent [pushd] leaves, and the truncation step keeps the first
    [DIRSTACK_SIZE] entries of whatever stack it is given. *)
Theorem dirstack_size_invariant (args : list string) (st : State W) :
  bounded st ->
  bounded (snd (cd sys args st)) /\
  bounded (snd (pushd sys args st)) /\
  bounded (snd (popd sys args st)) /\
  bounded (snd (dirs sys args st)) /\
  (forall l,
      DIRSTACK (truncate (set_DIRSTACK l st)) =
      firstn (Z.to_nat (DIRSTACK_SIZE st)) l) /\
  DIRSTACK (snd (pushd sys args st)) =
    match pushd_parse_args sys args with
    | Some a =>
        match pushd_target sys a st with
        | inr (Some t, stack) =>
            firstn (Z.to_nat (DIRSTACK_SIZE st))
              (expanduser sys (if a_cd a then PWD st else t) :: stack)
        | inr (None, stack) => firstn (Z.to_nat (DIRSTACK_SIZE st)) stack
        | inl _ => DIRSTACK st
        end
    | None => DIRSTACK st
    end /\
  DIRSTACK (snd (cd sys args st)) =
    match cd_resolve sys args st with
    | inr d =>
        if path_exists sys (world st) d && path_isdir sys (world st) d
           && access_X_OK sys (world st) d && AUTO_PUSHD st
        then DIRSTACK (snd (pushd sys ["-n"; "-q"; PWD st] st))
        else DIRSTACK st
    | inl _ => DIRSTACK st
    end.
Proof.
  intros Hb.
  assert (Hs : 0 <= DIRSTACK_SIZE st)
    by (unfold bounded in Hb; pose proof (len_nonneg (DIRSTACK st)); lia).
  split; [apply cd_bounded; assumption|].
  split; [apply pushd_bounded; assumption|].
  split; [apply popd_bounded; assumption|].
  split; [apply dirs_bounded; assumption|].
  split; [intros l; apply (truncate_firstn (set_DIRSTACK l st)); exact Hs|].
  split.
  - destruct (pushd_parse_args sys args) as [a|] eqn:Hp;
      [|unfold pushd; rewrite Hp; reflexivity].
    destruct (pushd_target sys a st) as [r | [new_pwd stack]] eqn:Ht;
      [unfold pushd; rewrite Hp, Ht; reflexivity|].
    rewrite (pushd_state sys args a st new_pwd stack Hp Ht).
    rewrite truncate_firstn by (rewrite pushd_apply_DIRSTACK_SIZE; exact Hs).
    rewrite pushd_apply_DIRSTACK_SIZE.
    unfold pushd_apply. destruct new_pwd as [t|]; [|reflexivity].
    destruct (a_cd a); [rewrite cwd_DIRSTACK|]; reflexivity.
  - unfold cd. destruct (cd_resolve sys args st) as [r|d]; [reflexivity|].
    unfold cd_enter.
    destruct (path_exists sys (world st) d); [|reflexivity].
    destruct (path_isdir sys (world st) d); [|reflexivity].
    destruct (access_X_OK sys (world st) d); [|reflexivity].
    cbn [negb andb].
    destruct (AUTO_PUSHD st).
    + destruct (fst (pushd sys ["-n"; "-q"; PWD st] st)); cbn [snd];
        rewrite ?cwd_DIRSTACK; reflexivity.
    + cbn [fst snd]. rewrite cwd_DIRSTACK. reflexivity.
Qed.

End Invariant.

Lemma dirstack_size_invariant_witness :
  bounded Posix.st_full /\
  bounded (snd (cd Posix.sys ["/c"] Posix.st_full)) /\
  bounded (snd (pushd Posix.sys ["/c"] Posix.st_full)) /\
  bounded (snd (popd Posix.sys ["/c"] Posix.st_full)) /\
  bounded (snd (dirs Posix.sys ["/c"] Posix.st_full)) /\
  DIRSTACK (snd (pushd Posix.sys ["/c"] Posix.st_full)) = ["/p"; "/a"] /\
  DIRSTACK (snd (cd Posix.sys ["/c"] Posix.st_full)) = ["/p"; "/a"].
Proof.
  assert (Hb : bounded Posix.st_full) by (unfold bounded; cbn; lia).
  destruct (dirstack_size_invariant Posix.sys ["/c"] Posix.st_full Hb)
    as (H1 & H2 & H3 & H4 & _ & H6 & H7).
  split; [exact Hb|]. split; [exact H1|]. split; [exact H2|].
  split; [exact H3|]. split; [exact H4|]. split.
  - rewrite H6. vm_compute. reflexivity.
  - rewrite H7. vm_compute. reflexivity.
Defined.

(** ** pushd *)

Section Pushd.
Context {W : Type} (sys : Sys W).

(** How [pushd] gets past its argument checks: with the named directory
    and the stack untouched, with no target at the boundary position, or
    with an entry taken off the stack. *)
Lemma pushd_target_cases (a : PushdArgs) (st : State W) new_pwd stack :
  pushd_target sys a st = inr (new_pwd, stack) ->
  (names_directory sys a st = true /\ new_pwd = a_dir a /\ stack = DIRSTACK st) \/
  (names_directory sys a st = false /\ new_pwd = None /\ stack = DIRSTACK st) \/
  (names_directory sys a st = false /\
   exists t, new_pwd = Some t /\ Py.len stack = Py.len (DIRSTACK st) - 1).
Proof.
  unfold pushd_target, pushd_signs, names_directory.
  destruct (PUSHD_MINUS st); cbv iota beta; destruct (a_dir a) as [dir|].
  all: try destruct (path_isdir sys (world st) dir).
  all: try (intros [= <- <-]; left; auto; fail).
  all: try (repeat match goal with
             | |- context [match ?x with _ => _ end] => destruct x eqn:?
             end; intros [= <- <-]; auto;
        right; right; (split; [reflexivity|]); eexists; (split; [reflexivity|]);
        match goal with
        | H : Py.pop _ _ = Some _ |- _ => exact (pop_len _ _ _ _ H)
        end).
Qed.

(** Exit code 0 means the argument checks were passed. *)
Lemma pushd_success (args : list string) (a : PushdArgs) (st : State W) out err :
  pushd_parse_args sys args = Some a ->
  fst (pushd sys args st) = Triple out err 0 ->
  exists new_pwd stack, pushd_target sys a st = inr (new_pwd, stack).
Proof.
  intros Hp. unfold pushd. rewrite Hp.
  destruct (pushd_target sys a st) as [r | [new_pwd stack]] eqn:Ht; [|eauto].
  destruct (pushd_target_error sys a st r Ht) as [[e ->] | [e ->]]; discriminate.
Qed.

(** C2, amended.  After a successful [pushd] without [-n], with a
    non-negative [DIRSTACK_SIZE]: when a rotation target was produced the
    stack holds [min(previous_length + 1, DIRSTACK_SIZE)] entries if [dir]
    names an existing directory and [min(previous_length, DIRSTACK_SIZE)]
    entries if the target was taken off the stack, and [PWD] is the
    absolute form of the target joined to the old [PWD] provided
    [os.chdir] succeeded; when no target was produced the stack holds
    [min(previous_length, DIRSTACK_SIZE)] entries and [PWD] is unchanged. *)
Theorem pushd_length_and_pwd (args : list string) (a : PushdArgs) (st : State W)
    (out err : option string) :
  pushd_parse_args sys args = Some a -> a_cd a = true ->
  0 <= DIRSTACK_SIZE st ->
  fst (pushd sys args st) = Triple out err 0 ->
  let st' := snd (pushd sys args st) in
  match rotation_target sys a st with
  | Some t =>
      Py.len (DIRSTACK st') =
      Z.min (Py.len (DIRSTACK st) + (if names_directory sys a st then 1 else 0))
            (DIRSTACK_SIZE st) /\
      (chdir sys (world st) (chdir_target sys t st) <> None ->
       PWD st' = chdir_target sys t st)
  | None =>
      Py.len (DIRSTACK st') = Z.min (Py.len (DIRSTACK st)) (DIRSTACK_SIZE st) /\
      PWD st' = PWD st
  end.
Proof.
  intros Hp Hcd Hs Hok.
  destruct (pushd_success args a st out err Hp Hok) as (new_pwd & stack & Ht).
  cbv zeta. rewrite (pushd_state sys args a st new_pwd stack Hp Ht).
  unfold rotation_target. rewrite Ht.
  assert (Hsize : DIRSTACK_SIZE (pushd_apply sys a new_pwd stack st) = DIRSTACK_SIZE st)
    by apply pushd_apply_DIRSTACK_SIZE.
  rewrite truncate_len by (rewrite Hsize; assumption).
  rewrite Hsize.
  destruct (truncate_frame (pushd_apply sys a new_pwd stack st)) as (-> & _).
  unfold pushd_apply. rewrite Hcd.
  destruct (pushd_target_cases a st new_pwd stack Ht)
    as [(Hn & -> & ->) | [(Hn & -> & ->) | (Hn & t & -> & Hlen)]]; rewrite ?Hn.
  - unfold names_directory in Hn. destruct (a_dir a) as [d|]; [|discriminate].
    rewrite cwd_DIRSTACK. cbn [DIRSTACK set_DIRSTACK]. rewrite len_cons.
    split; [reflexivity|].
    intros Hch. destruct (chdir sys (world st) (chdir_target sys d st)) as [w'|] eqn:Hc;
      [|congruence].
    apply (cwd_success sys d (set_DIRSTACK (expanduser sys (PWD st) :: DIRSTACK st) st) w').
    exact Hc.
  - cbn [DIRSTACK set_DIRSTACK PWD]. split; reflexivity.
  - rewrite cwd_DIRSTACK. cbn [DIRSTACK set_DIRSTACK]. rewrite len_cons, Hlen.
    split; [f_equal; lia|].
    intros Hch. destruct (chdir sys (world st) (chdir_target sys t st)) as [w'|] eqn:Hc;
      [|congruence].
    apply (cwd_success sys t (set_DIRSTACK (expanduser sys (PWD st) :: stack) st) w').
    exact Hc.
Qed.

End Pushd.

Lemma pushd_length_and_pwd_witness :
  let st' := snd (pushd Posix.sys ["/a"] (Posix.st0 ["/b"])) in
  Py.len (DIRSTACK st') = 2 /\ PWD st' = "/a".
Proof.
  pose proof (pushd_length_and_pwd Posix.sys ["/a"] (mkPushdArgs (Some "/a") true false)
                (Posix.st0 ["/b"]) (Some ("/a /p /b" ++ nl)) None
                eq_refl eq_refl ltac:(cbn; lia) eq_refl) as H.
  cbv zeta in H. change (rotation_target _ _ _) with (Some "/a") in H.
  destruct H as [Hlen Hpwd]. split.
  - exact Hlen.
  - apply Hpwd. discriminate.
Defined.

(** C2 as worded fails: [pushd] without [dir] swaps [PWD] with the top of
    the stack, so the length stays 1; and [pushd sub] with a relative
    directory leaves [PWD] at [/p/sub], not at [sub]. *)
Lemma pushd_grows_by_one_fails :
  ~ pushd_grows_by_one Posix.sys [] (Posix.st0 ["/a"]) /\
  ~ pushd_grows_by_one Posix.sys ["sub"] (Posix.st0 []).
Proof.
  split; intros H.
  - specialize (H (mkPushdArgs None true false) (Some ("/a /p" ++ nl)) None
                  eq_refl eq_refl eq_refl).
    destruct H as [Hlen _]. vm_compute in Hlen. discriminate Hlen.
  - specialize (H (mkPushdArgs (Some "sub") true false) (Some ("/p/sub /p" ++ nl)) None
                  eq_refl eq_refl eq_refl).
    destruct H as [_ Hpwd]. specialize (Hpwd "sub" eq_refl).
    vm_compute in Hpwd. discriminate Hpwd.
Qed.

(** ** Sign-indexed arguments *)

Lemma startswith_plus (plus : bool) (ds : string) :
  Py.startswith "+" (sign_token plus ds) = plus.
Proof. destruct plus, ds; reflexivity. Qed.

Lemma startswith_minus (plus : bool) (ds : string) :
  Py.startswith "-" (sign_token plus ds) = negb plus.
Proof. destruct plus, ds; reflexivity. Qed.

Lemma int_sign_token (plus : bool) (ds : string) :
  numeral ds -> Z.of_nat (String.length ds) <= Py.int_max_str_digits ->
  Py.int (Py.tail1 (sign_token plus ds)) = Some (numeral_value ds).
Proof. intros Hn Hl. cbn [Py.tail1 sign_token]. apply int_numeral; assumption. Qed.

Lemma ltb_false (n m : Z) : m <= n -> (n <? m) = false.
Proof. intros. apply Z.ltb_ge. assumption. Qed.

Lemma gtb_false (n m : Z) : n <= m -> (n >? m) = false.
Proof. intros. rewrite Z.gtb_ltb. apply Z.ltb_ge. assumption. Qed.

Lemma gtb_true (n m : Z) : m < n -> (n >? m) = true.
Proof. intros. rewrite Z.gtb_ltb. apply Z.ltb_lt. assumption. Qed.

Lemma eqb_false (n m : Z) : n <> m -> (n =? m) = false.
Proof. intros. apply Z.eqb_neq. assumption. Qed.

Section Boundary.
Context {W : Type} (sys : Sys W).



End Boundary.



(** ** popd, and pushd followed by popd *)

Section Popd.
Context {W : Type} (sys : Sys W).

Lemma popd_target_nodir (a : PushdArgs) (st : State W) :
  a_dir a = None ->
  popd_target a st =
  match Py.pop 0 (DIRSTACK st) with
  | Some (new_pwd, stack') => inr (Some new_pwd, stack')
  | None => inl (Triple None (Some ("popd: Directory stack is empty" ++ nl)) 1)
  end.
Proof.
  intros Ha. unfold popd_target, dirs_signs.
  destruct (PUSHD_MINUS st); cbv zeta iota beta; rewrite Ha; reflexivity.
Qed.

(** The state [popd] is left in once it is past its argument checks. *)
Lemma popd_state (args : list string) (a : PushdArgs) (st : State W) new_pwd stack :
  pushd_parse_args sys args = Some a ->
  popd_target a st = inr (new_pwd, stack) ->
  snd (popd sys args st) =
  match new_pwd with
  | Some t =>
      if a_cd a then change_working_directory sys t (set_DIRSTACK stack st)
      else set_DIRSTACK stack st
  | None => set_DIRSTACK stack st
  end.
Proof.
  intros Hp Ht. unfold popd. rewrite Hp, Ht.
  set (st1 := match new_pwd with Some _ => _ | None => _ end).
  destruct (negb _ && negb _); [|reflexivity].
  destruct (dirs_nil sys st1) as [out ->]. reflexivity.
Qed.

(** C4, amended.  Let [PWD] be an absolute normalised path that does not
    start with a tilde, and let the stack be shorter than [DIRSTACK_SIZE].
    A [pushd] without [-n] of an existing directory, followed by [popd]
    with no arguments, restores [PWD] and the stack, provided [os.chdir]
    back into the original directory succeeds. *)
Theorem pushd_popd_inverse (args : list string) (a : PushdArgs) (d : string)
    (st : State W) :
  pushd_parse_args sys args = Some a ->
  a_dir a = Some d -> a_cd a = true ->
  path_isdir sys (world st) d = true ->
  Py.len (DIRSTACK st) < DIRSTACK_SIZE st ->
  Py.startswith "~" (PWD st) = false ->
  (forall w p, path_abspath sys w (path_join sys p (PWD st)) = PWD st) ->
  chdir sys (world (snd (pushd sys args st))) (PWD st) <> None ->
  let st2 := snd (popd sys [] (snd (pushd sys args st))) in
  PWD st2 = PWD st /\ DIRSTACK st2 = DIRSTACK st.
Proof.
  intros Hp Ha Hcd Hdir Hlen Htilde Habs.
  assert (Ht : pushd_target sys a st = inr (Some d, DIRSTACK st)).
  { unfold pushd_target, pushd_signs.
    destruct (PUSHD_MINUS st); cbv iota beta; rewrite Ha, Hdir; reflexivity. }
  rewrite (pushd_state sys args a st _ _ Hp Ht).
  unfold pushd_apply. rewrite Hcd. unfold expanduser. rewrite Htilde.
  set (stc := change_working_directory sys d (set_DIRSTACK (PWD st :: DIRSTACK st) st)).
  assert (Hstack : DIRSTACK stc = PWD st :: DIRSTACK st)
    by (subst stc; rewrite cwd_DIRSTACK; reflexivity).
  assert (Hbd : bounded stc).
  { unfold bounded. rewrite Hstack, len_cons. subst stc.
    rewrite cwd_DIRSTACK_SIZE. cbn. lia. }
  rewrite (truncate_id stc Hbd). intros Hback. cbv zeta.
  assert (Hpt : popd_target (mkPushdArgs None true false) stc =
                inr (Some (PWD st), DIRSTACK st)).
  { rewrite popd_target_nodir by reflexivity. rewrite Hstack, pop_front. reflexivity. }
  rewrite (popd_state [] _ stc _ _ (pushd_parse_nil sys) Hpt). cbn [a_cd].
  destruct (chdir sys (world stc) (PWD st)) as [w'|] eqn:Hc; [|congruence].
  assert (Hc' : chdir sys (world (set_DIRSTACK (DIRSTACK st) stc))
                  (path_abspath sys (world (set_DIRSTACK (DIRSTACK st) stc))
                     (path_join sys (PWD (set_DIRSTACK (DIRSTACK st) stc)) (PWD st)))
                = Some w')
    by (rewrite Habs; exact Hc).
  destruct (cwd_success sys (PWD st) (set_DIRSTACK (DIRSTACK st) stc) w' Hc')
    as (Hpwd & _).
  split.
  - rewrite Hpwd. apply Habs.
  - rewrite cwd_DIRSTACK. reflexivity.
Qed.

End Popd.

Lemma pushd_popd_inverse_witness :
  let st2 := snd (popd Posix.sys [] (snd (pushd Posix.sys ["/a"] (Posix.st0 ["/b"])))) in
  PWD st2 = "/p" /\ DIRSTACK st2 = ["/b"].
Proof.
  assert (H1 : pushd_parse_args Posix.sys ["/a"] = Some (mkPushdArgs (Some "/a") true false))
    by reflexivity.
  assert (H2 : path_isdir Posix.sys (world (Posix.st0 ["/b"])) "/a" = true)
    by (vm_compute; reflexivity).
  assert (H3 : Py.len (DIRSTACK (Posix.st0 ["/b"])) < DIRSTACK_SIZE (Posix.st0 ["/b"]))
    by (cbn; lia).
  assert (H4 : Py.startswith "~" (PWD (Posix.st0 ["/b"])) = false) by reflexivity.
  assert (H5 : forall w p, path_abspath Posix.sys w
                             (path_join Posix.sys p (PWD (Posix.st0 ["/b"]))) =
                           PWD (Posix.st0 ["/b"])) by (intros w p; reflexivity).
  assert (H6 : chdir Posix.sys (world (snd (pushd Posix.sys ["/a"] (Posix.st0 ["/b"]))))
                 (PWD (Posix.st0 ["/b"])) <> None) by (vm_compute; discriminate).
  exact (pushd_popd_inverse Posix.sys ["/a"] (mkPushdArgs (Some "/a") true false) "/a"
           (Posix.st0 ["/b"]) H1 eq_refl eq_refl H2 H3 H4 H5 H6).
Defined.

(** C4 as worded fails: after [pushd -n /a] the following [popd] changes
    into [/a]; and when the original directory [/gone] can no longer be
    entered, [popd] leaves [PWD] at [/a]. *)
Lemma pushd_popd_restores_fails :
  ~ pushd_popd_restores Posix.sys ["-n"; "/a"] (Posix.st0 ["/b"]) /\
  ~ pushd_popd_restores Posix.sys ["/a"] Posix.st_gone.
Proof.
  split; intros H.
  - assert (H1 : pushd_parse_args Posix.sys ["-n"; "/a"] =
                 Some (mkPushdArgs (Some "/a") false false)) by reflexivity.
    assert (H2 : path_isdir Posix.sys (world (Posix.st0 ["/b"])) "/a" = true)
      by (vm_compute; reflexivity).
    assert (H3 : Py.len (DIRSTACK (Posix.st0 ["/b"])) < DIRSTACK_SIZE (Posix.st0 ["/b"]))
      by (cbn; lia).
    assert (H4 : fst (pushd Posix.sys ["-n"; "/a"] (Posix.st0 ["/b"])) =
                 Triple (Some ("/p /a /b" ++ nl)) None 0) by (vm_compute; reflexivity).
    destruct (H _ "/a" _ _ H1 eq_refl H2 H3 H4) as [Hpwd _].
    vm_compute in Hpwd. discriminate Hpwd.
  - assert (H1 : pushd_parse_args Posix.sys ["/a"] =
                 Some (mkPushdArgs (Some "/a") true false)) by reflexivity.
    assert (H2 : path_isdir Posix.sys (world Posix.st_gone) "/a" = true)
      by (vm_compute; reflexivity).
    assert (H3 : Py.len (DIRSTACK Posix.st_gone) < DIRSTACK_SIZE Posix.st_gone)
      by (cbn; lia).
    assert (H4 : fst (pushd Posix.sys ["/a"] Posix.st_gone) =
                 Triple (Some ("/a /gone /b" ++ nl)) None 0) by (vm_compute; reflexivity).
    destruct (H _ "/a" _ _ H1 eq_refl H2 H3 H4) as [Hpwd _].
    vm_compute in Hpwd. discriminate Hpwd.
Qed.

(** ** cd *)

Lemma getitem_in_range {A} (i : Z) (l : list A) :
  0 <= i < Py.len l ->
  exists x, Py.getitem i l = Some x /\ nth_error l (Z.to_nat i) = Some x.
Proof.
  intros Hi. unfold Py.getitem, Py.index.
  rewrite (ltb_false i 0) by lia.
  replace (0 <=? i) with true by (symmetry; apply Z.leb_le; lia).
  replace (i <? Py.len l) with true by (symmetry; apply Z.ltb_lt; lia).
  cbn [andb]. destruct (nth_error l (Z.to_nat i)) eqn:Hn; [eauto|].
  apply nth_error_None in Hn. unfold Py.len in Hi. lia.
Qed.

Section Cd.
Context {W : Type} (sys : Sys W).

Lemma expanduser_sign_token (plus : bool) (ds : string) :
  expanduser sys (sign_token plus ds) = sign_token plus ds.
Proof. unfold expanduser. destruct plus, ds; reflexivity. Qed.

Lemma sign_token_not_dash (plus : bool) (ds : string) :
  numeral ds -> String.eqb (sign_token plus ds) "-" = false.
Proof.
  intros [Hne _]. destruct ds as [|c r]; [congruence|].
  destruct plus; reflexivity.
Qed.

(** C7, amended.  For [cd] with one argument that does not name an
    existing directory, and [N] written with at most 4300 digits (the limit
    of [int()]): [-N] is a reference into the stack, where [-0] succeeds
    without changing anything, [-N] with [1 <= N <= len] goes on with the
    entry at index [N - 1] from the top whatever [PUSHD_MINUS] says, and a
    larger [N] is refused; [+N] is no stack reference, it is treated as a
    path like any other word. *)
Theorem cd_sign_index (plus : bool) (ds : string) (st : State W) :
  numeral ds ->
  Z.of_nat (String.length ds) <= Py.int_max_str_digits ->
  path_isdir sys (world st) (sign_token plus ds) = false ->
  let n := numeral_value ds in
  let len := Py.len (DIRSTACK st) in
  if plus then
    cd sys [sign_token true ds] st =
    cd_enter sys (try_cdpath sys (sign_token true ds) st) st
  else
    (n = 0 -> cd sys [sign_token false ds] st = (Triple None None 0, st)) /\
    (0 < n <= len ->
     exists e, nth_error (DIRSTACK st) (Z.to_nat (n - 1)) = Some e /\
               cd sys [sign_token false ds] st = cd_enter sys e st) /\
    (len < n ->
     cd sys [sign_token false ds] st =
     (Triple (Some EmptyString)
        (Some ("cd: Too few elements in dirstack (" ++ Py.str len ++ " elements)" ++ nl))
        1, st)).
Proof.
  intros Hn Hl Hdir n len.
  pose proof (numeral_value_nonneg ds (proj2 Hn)) as Hpos. fold n in Hpos.
  assert (Hres : forall p, p = plus ->
            cd_resolve sys [sign_token p ds] st =
            if p then inr (try_cdpath sys (sign_token p ds) st)
            else if n =? 0 then inl (Triple None None 0)
            else if n >? len then
              inl (Triple (Some EmptyString)
                     (Some ("cd: Too few elements in dirstack ("
                            ++ Py.str len ++ " elements)" ++ nl)) 1)
            else match Py.getitem (n - 1) (DIRSTACK st) with
                 | Some e => inr e
                 | None => inl (Uncaught "IndexError")
                 end).
  { intros p ->. unfold cd_resolve.
    rewrite expanduser_sign_token, Hdir, (sign_token_not_dash _ _ Hn), startswith_minus.
    cbn [negb]. destruct plus; cbn [negb]; [reflexivity|].
    rewrite (int_sign_token _ ds Hn Hl). fold n. fold len.
    rewrite (ltb_false n 0 Hpos). reflexivity. }
  destruct plus.
  - unfold cd. rewrite (Hres true eq_refl). reflexivity.
  - unfold cd. rewrite (Hres false eq_refl). repeat split.
    + intros ->. reflexivity.
    + intros Hr. rewrite (eqb_false n 0) by lia. rewrite (gtb_false n len) by lia.
      destruct (getitem_in_range (n - 1) (DIRSTACK st)) as (e & Hg & Hnth);
        [fold len; lia|].
      exists e. rewrite Hg. auto.
    + intros Hr. pose proof (len_nonneg (DIRSTACK st)). fold len in H.
      rewrite (eqb_false n 0) by lia. rewrite (gtb_true n len) by lia. reflexivity.
Qed.

End Cd.

Lemma cd_sign_index_witness :
  cd Posix.sys ["-0"] (Posix.st0 ["/a"; "/b"; "/c"]) =
    (Triple None None 0, Posix.st0 ["/a"; "/b"; "/c"]) /\
  PWD (snd (cd Posix.sys ["-2"] (Posix.st0 ["/a"; "/b"; "/c"]))) = "/b".
Proof.
  assert (N0 : numeral "0") by (split; [discriminate | reflexivity]).
  assert (N2 : numeral "2") by (split; [discriminate | reflexivity]).
  assert (L0 : Z.of_nat (String.length "0") <= Py.int_max_str_digits)
    by (vm_compute; discriminate).
  assert (L2 : Z.of_nat (String.length "2") <= Py.int_max_str_digits)
    by (vm_compute; discriminate).
  assert (D0 : path_isdir Posix.sys (world (Posix.st0 ["/a"; "/b"; "/c"]))
                 (sign_token false "0") = false) by (vm_compute; reflexivity).
  assert (D2 : path_isdir Posix.sys (world (Posix.st0 ["/a"; "/b"; "/c"]))
                 (sign_token false "2") = false) by (vm_compute; reflexivity).
  split.
  - pose proof (cd_sign_index Posix.sys false "0" (Posix.st0 ["/a"; "/b"; "/c"]) N0 L0 D0)
      as H.
    cbv zeta in H. destruct H as (H & _ & _). apply H. reflexivity.
  - pose proof (cd_sign_index Posix.sys false "2" (Posix.st0 ["/a"; "/b"; "/c"]) N2 L2 D2)
      as H.
    cbv zeta in H. destruct H as (_ & H & _).
    destruct H as (e & He & Hcd); [vm_compute; split; [reflexivity | discriminate]|].
    change (sign_token false "2") with "-2" in Hcd. rewrite Hcd.
    vm_compute in He. injection He as <-. vm_compute. reflexivity.
Defined.

(** C7 as worded fails for the plus sign: [cd +0] looks for a directory
    called [+0]. *)
Lemma cd_index_zero_noop_fails :
  ~ cd_index_zero_noop Posix.sys (Posix.st0 ["/a"; "/b"; "/c"]) /\
  fst (cd Posix.sys ["+0"] (Posix.st0 ["/a"; "/b"; "/c"])) =
  Triple (Some EmptyString) (Some ("cd: no such file or directory: +0" ++ nl)) 1.
Proof.
  assert (N0 : numeral "0") by (split; [discriminate | reflexivity]).
  assert (D0 : path_isdir Posix.sys (world (Posix.st0 ["/a"; "/b"; "/c"]))
                 (sign_token true "0") = false) by (vm_compute; reflexivity).
  split.
  - intros H. specialize (H true "0" N0 eq_refl D0).
    vm_compute in H. discriminate H.
  - vm_compute. reflexivity.
Qed.

(** ** cd when the system call fails *)

Section Failure.
Context {W : Type} (sys : Sys W).

(** The indices [pushd] pops at are inside the stack: no [IndexError]
    escapes. *)
Lemma pushd_target_caught (a : PushdArgs) (st : State W) (e : string) :
  pushd_target sys a st <> inl (Uncaught e).
Proof.
  unfold pushd_target. destruct (pushd_signs st) as [BACKWARD FORWARD].
  pose proof (len_nonneg (DIRSTACK st)) as Hlen.
  destruct (a_dir a) as [dir|].
  - destruct (path_isdir sys (world st) dir); [discriminate|].
    destruct (Py.int (Py.tail1 dir)) as [num|]; [|discriminate].
    destruct (Z.ltb_spec num 0); [discriminate|].
    rewrite Z.gtb_ltb. destruct (Z.ltb_spec (Py.len (DIRSTACK st)) num); [discriminate|].
    destruct (Py.startswith FORWARD dir).
    + destruct (Z.eqb_spec num (Py.len (DIRSTACK st))); [discriminate|].
      destruct (pop_in_range (Py.len (DIRSTACK st) - 1 - num) (DIRSTACK st))
        as (x & l' & ->); [lia | discriminate].
    + destruct (Py.startswith BACKWARD dir); [|discriminate].
      destruct (Z.eqb_spec num 0); [discriminate|].
      destruct (pop_in_range (num - 1) (DIRSTACK st)) as (x & l' & ->);
        [lia | discriminate].
  - destruct (Py.pop 0 (DIRSTACK st)) as [[x l']|]; discriminate.
Qed.

Lemma pushd_caught (args : list string) (st : State W) (e : string) :
  fst (pushd sys args st) <> Uncaught e.
Proof.
  unfold pushd. destruct (pushd_parse_args sys args) as [a|]; [|discriminate].
  destruct (pushd_target sys a st) as [r | [new_pwd stack]] eqn:Ht.
  - cbn. intros ->. exact (pushd_target_caught a st e Ht).
  - destruct (negb _ && negb _); [|discriminate].
    destruct (dirs_nil sys (truncate (pushd_apply sys a new_pwd stack st))) as [out ->].
    discriminate.
Qed.

(** With [-n] in effect [pushd] touches nothing but the stack. *)
Lemma pushd_n_frame (args : list string) (st : State W) :
  (forall a, pushd_parse_args sys args = Some a -> a_cd a = false) ->
  let st' := snd (pushd sys args st) in
  PWD st' = PWD st /\ OLDPWD st' = OLDPWD st /\
  world st' = world st /\ on_chdir st' = on_chdir st.
Proof.
  intros Hn. unfold pushd.
  destruct (pushd_parse_args sys args) as [a|]; [|cbn; auto].
  specialize (Hn a eq_refl).
  destruct (pushd_target sys a st) as [r | [new_pwd stack]]; [cbn; auto|].
  set (st1 := truncate (pushd_apply sys a new_pwd stack st)).
  assert (H1 : PWD st1 = PWD st /\ OLDPWD st1 = OLDPWD st /\
               world st1 = world st /\ on_chdir st1 = on_chdir st).
  { subst st1.
    destruct (truncate_frame (pushd_apply sys a new_pwd stack st))
      as (-> & -> & _ & _ & -> & ->).
    unfold pushd_apply. rewrite Hn. destruct new_pwd; cbn; auto. }
  cbv zeta. destruct (negb _ && negb _); [|exact H1].
  destruct (dirs_state sys [] st1) as [-> | ->]; exact H1.
Qed.

(** C10, amended.  [cd] has resolved and validated a target, [os.chdir]
    then fails, and the path does not end in [..]: [cd] returns exit code
    0 with both outputs absent; [PWD] and [OLDPWD] are unchanged and no
    event is fired.  The state is exactly the one before the call when
    [AUTO_PUSHD] is off; when it is on, it is the state the silent
    [pushd -n -q PWD] has left, so the current directory stays pushed on
    the stack. *)
Theorem cd_swallowed_chdir_failure (args : list string) (d : string) (st : State W) :
  cd_resolve sys args st = inr d ->
  enterable sys d st ->
  chdir sys (world st) (chdir_target sys d st) = None ->
  path_basename sys (fallback_path sys d st) <> ".." ->
  (forall a, pushd_parse_args sys ["-n"; "-q"; PWD st] = Some a -> a_cd a = false) ->
  let st' := snd (cd sys args st) in
  fst (cd sys args st) = Triple None None 0 /\
  PWD st' = PWD st /\ OLDPWD st' = OLDPWD st /\ on_chdir st' = on_chdir st /\
  st' = (if AUTO_PUSHD st then snd (pushd sys ["-n"; "-q"; PWD st] st) else st).
Proof.
  intros Hres (Hex & Hdir & Hacc) Hch Hbase Hn.
  unfold cd. rewrite Hres. unfold cd_enter. rewrite Hex, Hdir, Hacc. cbn [negb].
  set (pushed := if AUTO_PUSHD st then pushd sys ["-n"; "-q"; PWD st] st
                 else (Triple None None 0, st)).
  assert (Hfr : PWD (snd pushed) = PWD st /\ OLDPWD (snd pushed) = OLDPWD st /\
                world (snd pushed) = world st /\ on_chdir (snd pushed) = on_chdir st).
  { subst pushed. destruct (AUTO_PUSHD st); [|cbn; auto].
    apply pushd_n_frame. assumption. }
  destruct Hfr as (Hpwd & Hold & Hw & Hev).
  assert (Hstay : change_working_directory sys d (snd pushed) = snd pushed).
  { apply cwd_failure.
    - rewrite Hw, Hpwd. exact Hch.
    - unfold fallback_path. rewrite Hpwd. exact Hbase. }
  assert (Hsnd : snd pushed =
                 (if AUTO_PUSHD st then snd (pushd sys ["-n"; "-q"; PWD st] st) else st))
    by (subst pushed; destruct (AUTO_PUSHD st); reflexivity).
  assert (Hcaught : forall e, fst pushed <> Uncaught e).
  { subst pushed. destruct (AUTO_PUSHD st); [|discriminate].
    intros e. apply pushd_caught. }
  cbv zeta. destruct (fst pushed) as [o e rc | o e | e] eqn:Hf;
    [| | exfalso; exact (Hcaught e eq_refl)];
    cbn [fst snd]; rewrite Hstay; auto.
Qed.

End Failure.

Lemma cd_swallowed_chdir_failure_witness :
  fst (cd Posix.sys ["/d"] Posix.st_auto) = Triple None None 0 /\
  PWD (snd (cd Posix.sys ["/d"] Posix.st_auto)) = "/p" /\
  fst (cd Posix.sys ["/d"] (Posix.st0 ["/a"])) = Triple None None 0 /\
  snd (cd Posix.sys ["/d"] (Posix.st0 ["/a"])) = Posix.st0 ["/a"].
Proof.
  assert (Hen : forall st, world st = Posix.w0 -> enterable Posix.sys "/d" st)
    by (intros st Hw; unfold enterable; rewrite Hw; repeat split; vm_compute; reflexivity).
  assert (Hn : forall a, pushd_parse_args Posix.sys ["-n"; "-q"; "/p"] = Some a ->
                         a_cd a = false)
    by (intros a Ha; vm_compute in Ha; injection Ha as <-; reflexivity).
  assert (Hb : forall st, PWD st = "/p" ->
                 path_basename Posix.sys (fallback_path Posix.sys "/d" st) <> "..")
    by (intros st Hp; unfold fallback_path; rewrite Hp; vm_compute; discriminate).
  assert (Hc : forall st, PWD st = "/p" -> world st = Posix.w0 ->
                 chdir Posix.sys (world st) (chdir_target Posix.sys "/d" st) = None)
    by (intros st Hp Hw; unfold chdir_target; rewrite Hp, Hw; vm_compute; reflexivity).
  assert (R1 : cd_resolve Posix.sys ["/d"] Posix.st_auto = inr "/d")
    by (vm_compute; reflexivity).
  assert (R2 : cd_resolve Posix.sys ["/d"] (Posix.st0 ["/a"]) = inr "/d")
    by (vm_compute; reflexivity).
  destruct (cd_swallowed_chdir_failure Posix.sys ["/d"] "/d" Posix.st_auto
              R1 (Hen Posix.st_auto eq_refl) (Hc Posix.st_auto eq_refl eq_refl)
              (Hb Posix.st_auto eq_refl) Hn) as (H1 & H2 & _).
  destruct (cd_swallowed_chdir_failure Posix.sys ["/d"] "/d" (Posix.st0 ["/a"])
              R2 (Hen (Posix.st0 ["/a"]) eq_refl) (Hc (Posix.st0 ["/a"]) eq_refl eq_refl)
              (Hb (Posix.st0 ["/a"]) eq_refl) Hn) as (H3 & _ & _ & _ & H4).
  repeat split; assumption.
Defined.

(** C10 as worded fails when [AUTO_PUSHD] is on: the current directory has
    been pushed before the change was attempted. *)
Lemma cd_failure_changes_nothing_fails :
  ~ cd_failure_changes_nothing Posix.sys ["/d"] Posix.st_auto /\
  DIRSTACK (snd (cd Posix.sys ["/d"] Posix.st_auto)) = ["/p"].
Proof.
  split.
  - intros H.
    assert (Hen : enterable Posix.sys "/d" Posix.st_auto)
      by (repeat split; vm_compute; reflexivity).
    assert (Hb : path_basename Posix.sys (fallback_path Posix.sys "/d" Posix.st_auto) <> "..")
      by (vm_compute; discriminate).
    assert (Hc : chdir Posix.sys (world Posix.st_auto)
                   (chdir_target Posix.sys "/d" Posix.st_auto) = None)
      by (vm_compute; reflexivity).
    assert (Hr : cd_resolve Posix.sys ["/d"] Posix.st_auto = inr "/d")
      by (vm_compute; reflexivity).
    destruct (H "/d" Hr Hen Hc Hb) as (_ & _ & _ & Hstack & _).
    vm_compute in Hstack. discriminate Hstack.
  - vm_compute. reflexivity.
Qed.

(** ** Defects *)

Section Flag.
Context {W : Type} (sys : Sys W).

Lemma cwd_set_PUSHD_MINUS (b : bool) (d : string) (st : State W) :
  change_working_directory sys d (set_PUSHD_MINUS b st) =
  set_PUSHD_MINUS b (change_working_directory sys d st).
Proof.
  destruct st as [pwd old cdp au mi si sz stack w ev].
  unfold change_working_directory. cbn [PWD world set_PUSHD_MINUS].
  destruct (chdir sys w _) as [w'|].
  - cbn. destruct (negb _); reflexivity.
  - destruct (String.eqb (path_basename sys _) ".."); cbn;
      destruct (negb _); reflexivity.
Qed.

(** [dirs] gives the same answer whether [PUSHD_MINUS] is set or not. *)
Lemma dirs_ignores_PUSHD_MINUS (b : bool) (args : list string) (st : State W) :
  dirs sys args (set_PUSHD_MINUS b st) =
  (fst (dirs sys args st), set_PUSHD_MINUS b (snd (dirs sys args st))).
Proof.
  destruct st as [pwd old cdp au mi si sz stack w ev].
  unfold dirs, dirs_signs. cbn [PWD DIRSTACK PUSHD_MINUS set_PUSHD_MINUS].
  destruct (dirs_parse_args sys args) as [a|]; [|reflexivity].
  destruct b, mi; cbv iota beta;
    (destruct (a_clear a); [reflexivity|]);
    (destruct (a_N a) as [N|]; [|reflexivity]);
    (destruct (Py.int (Py.tail1 N)) as [num|]; [|reflexivity]);
    (destruct (num <? 0); [reflexivity|]);
    (destruct (num >=? _); [reflexivity|]);
    (destruct (Py.startswith "-" N);
     [destruct (Py.getitem num _); reflexivity|]);
    (destruct (Py.startswith "+" N); [|reflexivity]);
    destruct (Py.getitem _ _); reflexivity.
Qed.

Lemma popd_target_ignores_PUSHD_MINUS (b : bool) (a : PushdArgs) (st : State W) :
  popd_target a (set_PUSHD_MINUS b st) = popd_target a st.
Proof.
  unfold popd_target, dirs_signs. cbn [DIRSTACK PUSHD_MINUS set_PUSHD_MINUS].
  destruct b, (PUSHD_MINUS st); reflexivity.
Qed.

(** [popd] does the same whether [PUSHD_MINUS] is set or not. *)
Lemma popd_ignores_PUSHD_MINUS (b : bool) (args : list string) (st : State W) :
  popd sys args (set_PUSHD_MINUS b st) =
  (fst (popd sys args st), set_PUSHD_MINUS b (snd (popd sys args st))).
Proof.
  unfold popd.
  destruct (pushd_parse_args sys args) as [a|]; [|reflexivity].
  rewrite popd_target_ignores_PUSHD_MINUS.
  destruct (popd_target a st) as [r | [new_pwd stack]]; [reflexivity|].
  set (st1 := match new_pwd with
              | Some t => if a_cd a
                          then change_working_directory sys t (set_DIRSTACK stack st)
                          else set_DIRSTACK stack st
              | None => set_DIRSTACK stack st
              end).
  assert (H1 : match new_pwd with
               | Some t =>
                   if a_cd a
                   then change_working_directory sys t
                          (set_DIRSTACK stack (set_PUSHD_MINUS b st))
                   else set_DIRSTACK stack (set_PUSHD_MINUS b st)
               | None => set_DIRSTACK stack (set_PUSHD_MINUS b st)
               end = set_PUSHD_MINUS b st1).
  { subst st1. destruct new_pwd; [destruct (a_cd a)|]; try reflexivity.
    apply (cwd_set_PUSHD_MINUS b s (set_DIRSTACK stack st)). }
  rewrite H1. cbn [PUSHD_SILENT set_PUSHD_MINUS].
  destruct (negb _ && negb _); [|reflexivity].
  apply dirs_ignores_PUSHD_MINUS.
Qed.

(** When its arguments do not parse, [dirs] hands back two values. *)
Lemma dirs_parse_failure (args : list string) (st : State W) :
  dirs_parse_args sys args = None -> dirs sys args st = (Pair None None, st).
Proof. intros Hp. unfold dirs. rewrite Hp. reflexivity. Qed.

(** [pushd] always hands back three values. *)
Lemma pushd_returns_triple (args : list string) (st : State W) :
  is_triple (fst (pushd sys args st)).
Proof.
  unfold pushd. destruct (pushd_parse_args sys args) as [a|]; [|exact I].
  destruct (pushd_target sys a st) as [r | [new_pwd stack]] eqn:Ht.
  - destruct (pushd_target_error sys a st r Ht) as [[e ->] | [e ->]]; [exact I|].
    exfalso. exact (pushd_target_caught sys a st e Ht).
  - destruct (negb _ && negb _); [|exact I].
    destruct (dirs_nil sys (truncate (pushd_apply sys a new_pwd stack st))) as [out ->].
    exact I.
Qed.

(** So does [cd]. *)
Lemma cd_returns_triple (args : list string) (st : State W) :
  is_triple (fst (cd sys args st)).
Proof.
  unfold cd. destruct (cd_resolve sys args st) as [r|d] eqn:Hr.
  - revert Hr. unfold cd_resolve.
    destruct args as [|arg [|arg2 rest]]; [discriminate| |intros [= <-]; exact I].
    destruct (negb _); [|discriminate].
    destruct (String.eqb _ _); [destruct (OLDPWD st); [discriminate|intros [= <-]; exact I]|].
    destruct (Py.startswith _ _); [|discriminate].
    destruct (Py.int _) as [num|]; [|intros [= <-]; exact I].
    destruct (Z.eqb_spec num 0); [intros [= <-]; exact I|].
    destruct (Z.ltb_spec num 0); [intros [= <-]; exact I|].
    rewrite Z.gtb_ltb.
    destruct (Z.ltb_spec (Py.len (DIRSTACK st)) num); [intros [= <-]; exact I|].
    destruct (getitem_in_range (num - 1) (DIRSTACK st)) as (e & -> & _);
      [lia | discriminate].
  - unfold cd_enter.
    destruct (negb (path_exists _ _ _)); [exact I|].
    destruct (negb (path_isdir _ _ _)); [exact I|].
    destruct (negb (access_X_OK _ _ _)); [exact I|].
    set (pushed := if AUTO_PUSHD st then _ else _).
    assert (Hc : forall e, fst pushed <> Uncaught e)
      by (subst pushed; destruct (AUTO_PUSHD st);
          [intros e; apply pushd_caught | discriminate]).
    destruct (fst pushed) as [o e rc | o e | e]; try exact I.
    exact (Hc e eq_refl).
Qed.

End Flag.

(** C1 (defect).  Both arms of the [PUSHD_MINUS] test of [popd] and of
    [dirs] assign the same pair of signs, so the flag changes nothing: every
    call of [dirs] and of [popd] returns the same value and leaves the same
    state whether the flag is set or not.  In both settings [+N] counts from
    the bottom and [-N] from the top: with [PWD = /p] and stack
    [[/a, /b, /c]], [dirs +1] prints [/b] and [popd +1] removes [/b], flag
    set or unset, whereas [pushd +1] rotates to [/a] with the flag unset
    and to [/b] with the flag set. *)
Theorem popd_dirs_ignore_PUSHD_MINUS :
  (forall W (sys : Sys W) b args st,
      dirs sys args (set_PUSHD_MINUS b st) =
        (fst (dirs sys args st), set_PUSHD_MINUS b (snd (dirs sys args st))) /\
      popd sys args (set_PUSHD_MINUS b st) =
        (fst (popd sys args st), set_PUSHD_MINUS b (snd (popd sys args st)))) /\
  (let st := Posix.st0 ["/a"; "/b"; "/c"] in
   fst (dirs Posix.sys ["+1"] st) = Triple (Some ("/b" ++ nl)) None 0 /\
   fst (dirs Posix.sys ["+1"] (set_PUSHD_MINUS true st)) = Triple (Some ("/b" ++ nl)) None 0 /\
   DIRSTACK (snd (popd Posix.sys ["+1"] st)) = ["/a"; "/c"] /\
   DIRSTACK (snd (popd Posix.sys ["+1"] (set_PUSHD_MINUS true st))) = ["/a"; "/c"] /\
   PWD (snd (pushd Posix.sys ["+1"] st)) = "/a" /\
   PWD (snd (pushd Posix.sys ["+1"] (set_PUSHD_MINUS true st))) = "/b").
Proof.
  split.
  - intros W sys b args st. split.
    + apply dirs_ignores_PUSHD_MINUS.
    + apply popd_ignores_PUSHD_MINUS.
  - cbv zeta. repeat (split; [vm_compute; reflexivity|]). vm_compute. reflexivity.
Qed.

(** C5 (defect).  [cd] and [pushd] return three values on every input, but
    [dirs] returns two values whenever its arguments do not parse, as for
    [dirs -x]; and [popd +0] on an empty stack ends in an [IndexError] that
    nothing catches. *)
Theorem dirs_parse_failure_returns_pair :
  (forall W (sys : Sys W) args st,
      is_triple (fst (cd sys args st)) /\ is_triple (fst (pushd sys args st))) /\
  (forall W (sys : Sys W) args st,
      dirs_parse_args sys args = None -> dirs sys args st = (Pair None None, st)) /\
  fst (dirs Posix.sys ["-x"] (Posix.st0 [])) = Pair None None /\
  ~ is_triple (fst (dirs Posix.sys ["-x"] (Posix.st0 []))) /\
  fst (popd Posix.sys ["+0"] (Posix.st0 [])) = Uncaught "IndexError".
Proof.
  split; [|split; [|split; [|split]]].
  - intros W sys args st. split; [apply cd_returns_triple | apply pushd_returns_triple].
  - intros W sys args st. apply dirs_parse_failure.
  - vm_compute. reflexivity.
  - vm_compute. intros H. exact H.
  - vm_compute. reflexivity.
Qed.

(** C9 (defect).  The listing is abbreviated with [str.replace], which
    rewrites every occurrence of the home directory and not only a leading
    one: with home [/home/u], [PWD = /mnt/home/u/x] and stack
    [[/home/u/y]], [dirs] prints [/mnt~/x ~/y]. *)
Theorem dirs_abbreviates_inner_occurrence :
  fst (dirs Posix.sys [] Posix.st_mnt) = Triple (Some ("/mnt~/x ~/y" ++ nl)) None 0 /\
  Py.replace Posix.home "~" "/mnt/home/u/x" = "/mnt~/x".
Proof. split; vm_compute; reflexivity. Qed.

(** ** Further properties of the commands *)

Section Atomicity.
Context {W : Type} (sys : Sys W).

Lemma dirs_failed (args : list string) (st : State W) :
  ~ succeeded (fst (dirs sys args st)) -> snd (dirs sys args st) = st.
Proof.
  unfold dirs.
  destruct (dirs_parse_args sys args) as [a|]; [|reflexivity].
  destruct (dirs_signs st) as [BACKWARD FORWARD].
  destruct (a_clear a); [intros H; exfalso; apply H; exact I|].
  repeat match goal with
         | |- context [match ?x with _ => _ end] => destruct x
         end; reflexivity.
Qed.

Lemma pushd_failed (args : list string) (st : State W) :
  ~ succeeded (fst (pushd sys args st)) -> snd (pushd sys args st) = st.
Proof.
  unfold pushd.
  destruct (pushd_parse_args sys args) as [a|]; [|reflexivity].
  destruct (pushd_target sys a st) as [r | [new_pwd stack]]; [reflexivity|].
  intros H. exfalso. apply H.
  destruct (negb _ && negb _); [|exact I].
  destruct (dirs_nil sys (truncate (pushd_apply sys a new_pwd stack st))) as [out ->].
  exact I.
Qed.

Lemma popd_failed (args : list string) (st : State W) :
  ~ succeeded (fst (popd sys args st)) -> snd (popd sys args st) = st.
Proof.
  unfold popd.
  destruct (pushd_parse_args sys args) as [a|]; [|reflexivity].
  destruct (popd_target a st) as [r | [new_pwd stack]]; [reflexivity|].
  set (st1 := match new_pwd with Some _ => _ | None => _ end).
  intros H. exfalso. apply H.
  destruct (negb _ && negb _); [|exact I].
  destruct (dirs_nil sys st1) as [out ->]. exact I.
Qed.

Lemma cd_failed (args : list string) (st : State W) :
  ~ succeeded (fst (cd sys args st)) -> snd (cd sys args st) = st.
Proof.
  unfold cd. destruct (cd_resolve sys args st) as [r|d]; [reflexivity|].
  unfold cd_enter.
  destruct (negb (path_exists _ _ _)); [reflexivity|].
  destruct (negb (path_isdir _ _ _)); [reflexivity|].
  destruct (negb (access_X_OK _ _ _)); [reflexivity|].
  set (pushed := if AUTO_PUSHD st then _ else _).
  assert (Hc : forall e, fst pushed <> Uncaught e)
    by (subst pushed; destruct (AUTO_PUSHD st);
        [intros e; apply pushd_caught | discriminate]).
  destruct (fst pushed) as [o e rc | o e | e];
    intros H; exfalso; try (apply H; exact I).
  exact (Hc e eq_refl).
Qed.

(** X1.  A command that does not return exit code 0 has changed nothing:
    neither the environment, nor the stack, nor the directory of the
    process, and it has fired no event. *)
Theorem failed_command_changes_nothing (args : list string) (st : State W) :
  (~ succeeded (fst (cd sys args st)) -> snd (cd sys args st) = st) /\
  (~ succeeded (fst (pushd sys args st)) -> snd (pushd sys args st) = st) /\
  (~ succeeded (fst (popd sys args st)) -> snd (popd sys args st) = st) /\
  (~ succeeded (fst (dirs sys args st)) -> snd (dirs sys args st) = st).
Proof.
  repeat split.
  - apply cd_failed.
  - apply pushd_failed.
  - apply popd_failed.
  - apply dirs_failed.
Qed.

(** [dirs] touches nothing but the stack. *)
Lemma dirs_frame (args : list string) (st : State W) :
  let st' := snd (dirs sys args st) in
  PWD st' = PWD st /\ OLDPWD st' = OLDPWD st /\
  world st' = world st /\ on_chdir st' = on_chdir st.
Proof.
  cbv zeta. destruct (dirs_state sys args st) as [-> | ->]; cbn; auto.
Qed.

(** X2.  [dirs] never changes [PWD], [OLDPWD] or the directory of the
    process and fires no event; it leaves the stack as it is unless [-c] was
    parsed, and then it empties the stack and returns exit code 0 with no
    output, whatever else was on the command line (an index that would be
    refused included). *)
Theorem dirs_clears_or_keeps (args : list string) (st : State W) :
  let st' := snd (dirs sys args st) in
  PWD st' = PWD st /\ OLDPWD st' = OLDPWD st /\
  world st' = world st /\ on_chdir st' = on_chdir st /\
  match dirs_parse_args sys args with
  | Some a =>
      if a_clear a
      then dirs sys args st = (Triple None None 0, set_DIRSTACK [] st)
      else st' = st
  | None => st' = st
  end.
Proof.
  cbv zeta. destruct (dirs_frame args st) as (H1 & H2 & H3 & H4).
  repeat (split; [assumption|]).
  unfold dirs.
  destruct (dirs_parse_args sys args) as [a|]; [|reflexivity].
  destruct (dirs_signs st) as [BACKWARD FORWARD].
  destruct (a_clear a); [reflexivity|].
  repeat match goal with
         | |- context [match ?x with _ => _ end] => destruct x
         end; reflexivity.
Qed.

End Atomicity.

Lemma failed_command_changes_nothing_witness :
  snd (popd Posix.sys [] (Posix.st0 [])) = Posix.st0 [] /\
  snd (cd Posix.sys ["/a"; "/b"] (Posix.st0 ["/c"])) = Posix.st0 ["/c"].
Proof.
  split.
  - destruct (failed_command_changes_nothing Posix.sys [] (Posix.st0 []))
      as (_ & _ & H & _).
    apply H. vm_compute. intros F. exact F.
  - destruct (failed_command_changes_nothing Posix.sys ["/a"; "/b"] (Posix.st0 ["/c"]))
      as (H & _).
    apply H. vm_compute. intros F. exact F.
Defined.

Section CdEffects.
Context {W : Type} (sys : Sys W).

(** The events of one call of the mutator. *)
Lemma cwd_log (d : string) (st : State W) :
  on_chdir (change_working_directory sys d st) =
  (on_chdir st ++ pwd_events st (change_working_directory sys d st))%list.
Proof.
  unfold pwd_events, change_working_directory.
  set (st1 := match chdir sys _ _ with Some _ => _ | None => _ end).
  assert (Hlog : on_chdir st1 = on_chdir st).
  { subst st1. destruct (chdir sys _ _); [reflexivity|].
    destruct (String.eqb _ ".."); reflexivity. }
  destruct (String.eqb (PWD st) (PWD st1)) eqn:He; cbn [negb].
  - rewrite He, Hlog, app_nil_r. reflexivity.
  - cbn [fire PWD on_chdir]. rewrite He, Hlog. reflexivity.
Qed.

(** What a [cd] that gets to [os.chdir], and succeeds there, leaves. *)
Lemma cd_enter_success (d : string) (st : State W) (w' : W) :
  n_flag_respected sys -> enterable sys d st ->
  chdir sys (world st) (chdir_target sys d st) = Some w' ->
  let st' := snd (cd_enter sys d st) in
  fst (cd_enter sys d st) = Triple None None 0 /\
  PWD st' = chdir_target sys d st /\ OLDPWD st' = Some (PWD st) /\
  world st' = w' /\ on_chdir st' = (on_chdir st ++ pwd_events st st')%list /\
  DIRSTACK st' =
  DIRSTACK (if AUTO_PUSHD st then snd (pushd sys ["-n"; "-q"; PWD st] st) else st).
Proof.
  intros Hn (Hex & Hdir & Hacc) Hch.
  unfold cd_enter. rewrite Hex, Hdir, Hacc. cbn [negb].
  set (pushed := if AUTO_PUSHD st then pushd sys ["-n"; "-q"; PWD st] st
                 else (Triple None None 0, st)).
  assert (Hfr : PWD (snd pushed) = PWD st /\ OLDPWD (snd pushed) = OLDPWD st /\
                world (snd pushed) = world st /\ on_chdir (snd pushed) = on_chdir st).
  { subst pushed. destruct (AUTO_PUSHD st); [|cbn; auto].
    apply pushd_n_frame. apply Hn. }
  destruct Hfr as (Hpwd & Hold & Hw & Hev).
  assert (Hsnd : snd pushed =
                 (if AUTO_PUSHD st then snd (pushd sys ["-n"; "-q"; PWD st] st) else st))
    by (subst pushed; destruct (AUTO_PUSHD st); reflexivity).
  assert (Hcaught : forall e, fst pushed <> Uncaught e).
  { subst pushed. destruct (AUTO_PUSHD st); [|discriminate].
    intros e. apply pushd_caught. }
  assert (Hch' : chdir sys (world (snd pushed))
                   (path_abspath sys (world (snd pushed))
                      (path_join sys (PWD (snd pushed)) d)) = Some w')
    by (rewrite Hw, Hpwd; exact Hch).
  destruct (cwd_success sys d (snd pushed) w' Hch') as (Cpwd & Cold & Cw).
  pose proof (cwd_log d (snd pushed)) as Cev.
  unfold pwd_events in Cev. rewrite Hev, Hpwd in Cev.
  fold (pwd_events st (change_working_directory sys d (snd pushed))) in Cev.
  assert (Hres : forall r, (forall e, r <> Uncaught e) ->
            match r with
            | Uncaught e => (Uncaught e, snd pushed)
            | _ => (Triple None None 0, change_working_directory sys d (snd pushed))
            end = (Triple None None 0, change_working_directory sys d (snd pushed))).
  { intros r Hr. destruct r as [o e rc | o e | e]; try reflexivity.
    exfalso. exact (Hr e eq_refl). }
  cbv zeta. rewrite (Hres (fst pushed) Hcaught). cbn [fst snd].
  rewrite Cpwd, Cold, Cw, Hw, Hpwd, cwd_DIRSTACK, <- Hsnd.
  repeat split. exact Cev.
Qed.

(** X3.  When [cd] has resolved a destination, it returns exit code 0
    with no output exactly when the destination exists, is a directory and
    is searchable. *)
Theorem cd_succeeds_iff_enterable (args : list string) (d : string) (st : State W) :
  cd_resolve sys args st = inr d ->
  (fst (cd sys args st) = Triple None None 0 <-> enterable sys d st).
Proof.
  intros Hres. unfold cd. rewrite Hres. unfold cd_enter, enterable.
  destruct (path_exists sys (world st) d); cbn [negb];
    [|split; [discriminate | intros (F & _); discriminate F]].
  destruct (path_isdir sys (world st) d); cbn [negb];
    [|split; [discriminate | intros (_ & F & _); discriminate F]].
  destruct (access_X_OK sys (world st) d); cbn [negb];
    [|split; [discriminate | intros (_ & _ & F); discriminate F]].
  split; [auto|]. intros _.
  set (pushed := if AUTO_PUSHD st then _ else _).
  assert (Hc : forall e, fst pushed <> Uncaught e)
    by (subst pushed; destruct (AUTO_PUSHD st);
        [intros e; apply pushd_caught | discriminate]).
  destruct (fst pushed) as [o e rc | o e | e]; try reflexivity.
  exfalso. exact (Hc e eq_refl).
Qed.

(** X4.  A [cd] whose destination passes the checks and whose
    [os.chdir] succeeds sets [PWD] to the absolute form of the destination
    joined to the old [PWD], remembers the old [PWD] in [OLDPWD], fires one
    event if and only if [PWD] has changed, and, with [AUTO_PUSHD] off,
    leaves the stack alone. *)
Theorem cd_changes_directory (args : list string) (d : string) (st : State W) (w' : W) :
  n_flag_respected sys ->
  cd_resolve sys args st = inr d -> enterable sys d st ->
  chdir sys (world st) (chdir_target sys d st) = Some w' ->
  let st' := snd (cd sys args st) in
  PWD st' = chdir_target sys d st /\ OLDPWD st' = Some (PWD st) /\
  world st' = w' /\ on_chdir st' = (on_chdir st ++ pwd_events st st')%list /\
  (AUTO_PUSHD st = false -> DIRSTACK st' = DIRSTACK st).
Proof.
  intros Hn Hres Hen Hch. unfold cd. rewrite Hres.
  destruct (cd_enter_success d st w' Hn Hen Hch) as (_ & H1 & H2 & H3 & H4 & H5).
  cbv zeta. repeat (split; [assumption|]).
  intros Hoff. rewrite H5, Hoff. reflexivity.
Qed.

(** X5.  With [AUTO_PUSHD] on, and [PWD] an existing directory that
    [argparse] takes for the positional, a [cd] that passes the checks
    pushes the old [PWD] on top of the stack before it changes directory,
    and the stack is cut to [DIRSTACK_SIZE]. *)
Theorem cd_auto_pushd (args : list string) (d : string) (st : State W) :
  AUTO_PUSHD st = true ->
  pushd_parse_args sys ["-n"; "-q"; PWD st] = Some (mkPushdArgs (Some (PWD st)) false true) ->
  path_isdir sys (world st) (PWD st) = true ->
  0 <= DIRSTACK_SIZE st ->
  cd_resolve sys args st = inr d -> enterable sys d st ->
  fst (cd sys args st) = Triple None None 0 /\
  DIRSTACK (snd (cd sys args st)) =
  firstn (Z.to_nat (DIRSTACK_SIZE st)) (expanduser sys (PWD st) :: DIRSTACK st).
Proof.
  intros Hauto Hp Hdirp Hsize Hres (Hex & Hdir & Hacc).
  assert (Ht : pushd_target sys (mkPushdArgs (Some (PWD st)) false true) st =
               inr (Some (PWD st), DIRSTACK st)).
  { unfold pushd_target. destruct (pushd_signs st) as [B F].
    cbn [a_dir]. rewrite Hdirp. reflexivity. }
  assert (Hst : snd (pushd sys ["-n"; "-q"; PWD st] st) =
                truncate (set_DIRSTACK (expanduser sys (PWD st) :: DIRSTACK st) st))
    by (rewrite (pushd_state sys _ _ st _ _ Hp Ht); reflexivity).
  assert (Hfst : fst (pushd sys ["-n"; "-q"; PWD st] st) = Triple None None 0).
  { unfold pushd. rewrite Hp, Ht. reflexivity. }
  unfold cd. rewrite Hres. unfold cd_enter. rewrite Hex, Hdir, Hacc, Hauto.
  cbn [negb]. rewrite Hfst, Hst. cbn [fst snd]. split; [reflexivity|].
  rewrite cwd_DIRSTACK.
  apply (truncate_firstn (set_DIRSTACK (expanduser sys (PWD st) :: DIRSTACK st) st)).
  exact Hsize.
Qed.

(** X6.  [cd -] goes to [OLDPWD]: when that directory passes the checks
    and [os.chdir] succeeds, [PWD] becomes the absolute form of the old
    [OLDPWD] and [OLDPWD] becomes the old [PWD]; without an [OLDPWD] the
    call fails with exit code 1 and changes nothing. *)
Theorem cd_dash_swaps (st : State W) :
  n_flag_respected sys ->
  path_isdir sys (world st) "-" = false ->
  match OLDPWD st with
  | Some o =>
      enterable sys o st ->
      chdir sys (world st) (chdir_target sys o st) <> None ->
      let st' := snd (cd sys ["-"] st) in
      fst (cd sys ["-"] st) = Triple None None 0 /\
      PWD st' = chdir_target sys o st /\ OLDPWD st' = Some (PWD st)
  | None =>
      cd sys ["-"] st =
      (Triple (Some EmptyString) (Some ("cd: no previous directory stored" ++ nl)) 1, st)
  end.
Proof.
  intros Hn Hdash.
  assert (Hres : cd_resolve sys ["-"] st =
                 match OLDPWD st with
                 | Some o => inr o
                 | None => inl (Triple (Some EmptyString)
                                  (Some ("cd: no previous directory stored" ++ nl)) 1)
                 end).
  { unfold cd_resolve. change (expanduser sys "-") with "-". rewrite Hdash. reflexivity. }
  unfold cd. rewrite Hres. destruct (OLDPWD st) as [o|]; [|reflexivity].
  intros Hen Hch.
  destruct (chdir sys (world st) (chdir_target sys o st)) as [w'|] eqn:Hc; [|congruence].
  destruct (cd_enter_success o st w' Hn Hen Hc) as (H0 & H1 & H2 & _).
  cbv zeta. auto.
Qed.

End CdEffects.

Lemma posix_parse_keeps_n (toks : list string) :
  forall a0 a, a_cd a0 = false -> Posix.parse_pushd toks a0 = Some a -> a_cd a = false.
Proof.
  induction toks as [|tok rest IH]; cbn [Posix.parse_pushd]; intros a0 a H0.
  - intros [= <-]. exact H0.
  - destruct (String.eqb tok "-n"); [apply IH; reflexivity|].
    destruct (String.eqb tok "-q"); [apply IH; exact H0|].
    destruct (Posix.is_option tok); [discriminate|].
    destruct (a_dir a0); [discriminate|]. apply IH. exact H0.
Qed.

Lemma posix_n_flag_respected : n_flag_respected Posix.sys.
Proof.
  intros cwd a H.
  exact (posix_parse_keeps_n [cwd] (mkPushdArgs None false true) a eq_refl H).
Qed.

Lemma posix_enterable (d : string) (st : State Posix.World) :
  Posix.access (world st) d = true -> Posix.isdir (world st) d = true ->
  enterable Posix.sys d st.
Proof.
  intros Ha Hd. unfold enterable. cbn [path_exists path_isdir access_X_OK Posix.sys].
  repeat split; try assumption.
  unfold Posix.exists_. rewrite Hd. reflexivity.
Qed.

Lemma cd_succeeds_iff_enterable_witness :
  fst (cd Posix.sys ["/a"] (Posix.st0 [])) = Triple None None 0 <->
  enterable Posix.sys "/a" (Posix.st0 []).
Proof.
  assert (R : cd_resolve Posix.sys ["/a"] (Posix.st0 []) = inr "/a")
    by (vm_compute; reflexivity).
  exact (cd_succeeds_iff_enterable Posix.sys ["/a"] "/a" (Posix.st0 []) R).
Defined.

Lemma cd_changes_directory_witness :
  PWD (snd (cd Posix.sys ["sub"] (Posix.st0 ["/b"]))) = "/p/sub" /\
  OLDPWD (snd (cd Posix.sys ["sub"] (Posix.st0 ["/b"]))) = Some "/p" /\
  DIRSTACK (snd (cd Posix.sys ["sub"] (Posix.st0 ["/b"]))) = ["/b"].
Proof.
  assert (R : cd_resolve Posix.sys ["sub"] (Posix.st0 ["/b"]) = inr "sub")
    by (vm_compute; reflexivity).
  assert (E : enterable Posix.sys "sub" (Posix.st0 ["/b"]))
    by (apply posix_enterable; vm_compute; reflexivity).
  assert (C : chdir Posix.sys (world (Posix.st0 ["/b"]))
                (chdir_target Posix.sys "sub" (Posix.st0 ["/b"])) =
              Some (Posix.mkWorld (Posix.w_dirs Posix.w0) [] [] (Posix.w_enter Posix.w0)
                      "/p/sub")) by (vm_compute; reflexivity).
  destruct (cd_changes_directory Posix.sys ["sub"] "sub" (Posix.st0 ["/b"]) _
              posix_n_flag_respected R E C) as (H1 & H2 & _ & _ & H5).
  split; [|split].
  - rewrite H1. vm_compute. reflexivity.
  - exact H2.
  - apply H5. reflexivity.
Defined.

Lemma cd_auto_pushd_witness :
  fst (cd Posix.sys ["/a"] Posix.st_full) = Triple None None 0 /\
  DIRSTACK (snd (cd Posix.sys ["/a"] Posix.st_full)) = ["/p"; "/a"].
Proof.
  assert (R : cd_resolve Posix.sys ["/a"] Posix.st_full = inr "/a")
    by (vm_compute; reflexivity).
  assert (E : enterable Posix.sys "/a" Posix.st_full)
    by (apply posix_enterable; vm_compute; reflexivity).
  assert (D : path_isdir Posix.sys (world Posix.st_full) (PWD Posix.st_full) = true)
    by (vm_compute; reflexivity).
  assert (S : 0 <= DIRSTACK_SIZE Posix.st_full) by (cbn; lia).
  exact (cd_auto_pushd Posix.sys ["/a"] "/a" Posix.st_full eq_refl eq_refl D S R E).
Defined.

Lemma cd_dash_swaps_witness :
  fst (cd Posix.sys ["-"] st_back) = Triple None None 0 /\
  PWD (snd (cd Posix.sys ["-"] st_back)) = "/a" /\
  OLDPWD (snd (cd Posix.sys ["-"] st_back)) = Some "/p".
Proof.
  assert (D : path_isdir Posix.sys (world st_back) "-" = false)
    by (vm_compute; reflexivity).
  assert (E : enterable Posix.sys "/a" st_back)
    by (apply posix_enterable; vm_compute; reflexivity).
  assert (C : chdir Posix.sys (world st_back) (chdir_target Posix.sys "/a" st_back) <> None)
    by (vm_compute; discriminate).
  exact (cd_dash_swaps Posix.sys st_back posix_n_flag_respected D E C).
Defined.

(** ** Further properties of pushd and popd *)

Lemma pop_remove_at {A} (i : Z) (l : list A) :
  0 <= i < Py.len l ->
  exists x, nth_error l (Z.to_nat i) = Some x /\
            Py.pop i l = Some (x, remove_at (Z.to_nat i) l).
Proof.
  intros Hi. unfold Py.pop, Py.index.
  rewrite (ltb_false i 0) by lia.
  replace (0 <=? i) with true by (symmetry; apply Z.leb_le; lia).
  replace (i <? Py.len l) with true by (symmetry; apply Z.ltb_lt; lia).
  cbn [andb]. destruct (nth_error l (Z.to_nat i)) eqn:Hn.
  - exists a. split; reflexivity.
  - apply nth_error_None in Hn. unfold Py.len in Hi. lia.
Qed.

Section StackCommands.
Context {W : Type} (sys : Sys W).

Lemma pushd_apply_n_frame (a : PushdArgs) new_pwd stack (st : State W) :
  a_cd a = false ->
  let st' := pushd_apply sys a new_pwd stack st in
  PWD st' = PWD st /\ OLDPWD st' = OLDPWD st /\
  world st' = world st /\ on_chdir st' = on_chdir st.
Proof. intros Hn. unfold pushd_apply. rewrite Hn. destruct new_pwd; cbn; auto. Qed.

(** X7.  With [-n], [pushd] and [popd] work on the stack only: [PWD],
    [OLDPWD] and the directory of the process stay as they are and no event
    is fired. *)
Theorem n_flag_suppresses_chdir (args : list string) (a : PushdArgs) (st : State W) :
  pushd_parse_args sys args = Some a -> a_cd a = false ->
  (let st' := snd (pushd sys args st) in
   PWD st' = PWD st /\ OLDPWD st' = OLDPWD st /\
   world st' = world st /\ on_chdir st' = on_chdir st) /\
  (let st' := snd (popd sys args st) in
   PWD st' = PWD st /\ OLDPWD st' = OLDPWD st /\
   world st' = world st /\ on_chdir st' = on_chdir st).
Proof.
  intros Hp Hn. split; cbv zeta.
  - unfold pushd. rewrite Hp.
    destruct (pushd_target sys a st) as [r | [new_pwd stack]]; [cbn; auto|].
    set (st1 := truncate (pushd_apply sys a new_pwd stack st)).
    assert (H1 : PWD st1 = PWD st /\ OLDPWD st1 = OLDPWD st /\
                 world st1 = world st /\ on_chdir st1 = on_chdir st).
    { subst st1.
      destruct (truncate_frame (pushd_apply sys a new_pwd stack st))
        as (-> & -> & _ & _ & -> & ->).
      apply pushd_apply_n_frame. exact Hn. }
    destruct (negb _ && negb _); [|exact H1].
    destruct (dirs_nil sys st1) as [out ->]. exact H1.
  - unfold popd. rewrite Hp, Hn.
    destruct (popd_target a st) as [r | [new_pwd stack]]; [cbn; auto|].
    set (st1 := match new_pwd with Some _ => _ | None => _ end).
    assert (H1 : PWD st1 = PWD st /\ OLDPWD st1 = OLDPWD st /\
                 world st1 = world st /\ on_chdir st1 = on_chdir st)
      by (subst st1; destruct new_pwd; cbn; auto).
    destruct (negb _ && negb _); [|exact H1].
    destruct (dirs_nil sys st1) as [out ->]. exact H1.
Qed.

(** The stack a successful [popd] leaves. *)
Lemma popd_stack (args : list string) (a : PushdArgs) (st : State W) new_pwd stack :
  pushd_parse_args sys args = Some a ->
  popd_target a st = inr (new_pwd, stack) ->
  DIRSTACK (snd (popd sys args st)) = stack /\ succeeded (fst (popd sys args st)).
Proof.
  intros Hp Ht. split.
  - rewrite (popd_state sys args a st new_pwd stack Hp Ht).
    destruct new_pwd; [destruct (a_cd a)|]; rewrite ?cwd_DIRSTACK; reflexivity.
  - unfold popd. rewrite Hp, Ht.
    set (st1 := match new_pwd with Some _ => _ | None => _ end).
    destruct (negb _ && negb _); [|exact I].
    destruct (dirs_nil sys st1) as [out ->]. exact I.
Qed.

(** X8.  A [popd] that returns exit code 0 has removed exactly one entry
    from the stack; in particular it never succeeds on an empty stack. *)
Theorem popd_removes_one (args : list string) (st : State W) :
  succeeded (fst (popd sys args st)) ->
  Py.len (DIRSTACK (snd (popd sys args st))) = Py.len (DIRSTACK st) - 1 /\
  DIRSTACK st <> [].
Proof.
  intros Hok.
  assert (Hlen : Py.len (DIRSTACK (snd (popd sys args st))) = Py.len (DIRSTACK st) - 1).
  { revert Hok. unfold popd.
    destruct (pushd_parse_args sys args) as [a|] eqn:Hp; [|intros []].
    destruct (popd_target a st) as [r | [new_pwd stack]] eqn:Ht.
    - cbn [fst]. intros Hr. exfalso. revert Ht Hr.
      unfold popd_target. destruct (dirs_signs st) as [B F].
      repeat match goal with
             | |- context [match ?x with _ => _ end] => destruct x
             end; intros [= <-]; intros [].
    - intros _.
      pose proof (popd_stack args a st new_pwd stack Hp Ht) as [Hs _].
      unfold popd in Hs. rewrite Hp, Ht in Hs. rewrite Hs.
      exact (popd_target_len a st new_pwd stack Ht). }
  split; [exact Hlen|].
  intros Hnil. rewrite Hnil in Hlen.
  pose proof (len_nonneg (DIRSTACK (snd (popd sys args st)))).
  cbn in Hlen. lia.
Qed.

(** X9.  A sign-indexed [popd] that does not address the boundary, with
    its number written in at most 4300 digits (the limit of [int()]), trims
    the stack and changes no directory.  As the code stands (the flag is
    not consulted), [+N] with [N < len] removes the entry at index
    [len - 1 - N] and [-N] with [1 <= N <= len] the entry at index [N - 1];
    [PWD], [OLDPWD] and the directory of the process stay as they are and no
    event is fired. *)
Theorem popd_trims_interior (args : list string) (a : PushdArgs) (plus : bool)
    (ds : string) (st : State W) :
  pushd_parse_args sys args = Some a ->
  a_dir a = Some (sign_token plus ds) -> numeral ds ->
  Z.of_nat (String.length ds) <= Py.int_max_str_digits ->
  let n := numeral_value ds in
  let len := Py.len (DIRSTACK st) in
  (if plus then n < len else 0 < n <= len) ->
  let st' := snd (popd sys args st) in
  succeeded (fst (popd sys args st)) /\
  DIRSTACK st' = remove_at (Z.to_nat (if plus then len - 1 - n else n - 1)) (DIRSTACK st) /\
  PWD st' = PWD st /\ OLDPWD st' = OLDPWD st /\
  world st' = world st /\ on_chdir st' = on_chdir st.
Proof.
  intros Hp Ha Hn Hl n len Hr.
  pose proof (numeral_value_nonneg ds (proj2 Hn)) as Hpos. fold n in Hpos.
  set (k := if plus then len - 1 - n else n - 1).
  assert (Hk : 0 <= k < len) by (subst k; destruct plus; lia).
  destruct (pop_remove_at k (DIRSTACK st) Hk) as (x & _ & Hpop).
  assert (Ht : popd_target a st = inr (None, remove_at (Z.to_nat k) (DIRSTACK st))).
  { unfold popd_target. destruct (dirs_signs st) as [B F] eqn:Hs.
    assert (B = "-" /\ F = "+") as [-> ->]
      by (unfold dirs_signs in Hs; destruct (PUSHD_MINUS st); inversion Hs; auto).
    rewrite Ha, (int_sign_token _ ds Hn Hl). fold n. fold len.
    rewrite (ltb_false n 0 Hpos), startswith_plus, startswith_minus.
    subst k. destruct plus; cbn [negb].
    - rewrite (gtb_false n len) by lia. rewrite (eqb_false n len) by lia.
      rewrite Hpop. reflexivity.
    - rewrite (gtb_false n len) by lia. rewrite (eqb_false n 0) by lia.
      rewrite Hpop. reflexivity. }
  destruct (popd_stack args a st _ _ Hp Ht) as [Hs Hok].
  cbv zeta. split; [exact Hok|]. split; [exact Hs|].
  rewrite (popd_state sys args a st _ _ Hp Ht). cbn. auto.
Qed.

(** What [pushd] without arguments does on a stack that is within its
    bound: it exchanges [PWD] and the top of the stack. *)
Lemma pushd_swap (st : State W) (t : string) (rest : list string) :
  DIRSTACK st = t :: rest -> bounded st ->
  Py.startswith "~" (PWD st) = false ->
  (forall w q, path_abspath sys w (path_join sys q t) = t) ->
  chdir sys (world st) t <> None ->
  let st1 := snd (pushd sys [] st) in
  PWD st1 = t /\ DIRSTACK st1 = PWD st :: rest /\
  DIRSTACK_SIZE st1 = DIRSTACK_SIZE st /\ OLDPWD st1 = Some (PWD st).
Proof.
  intros Hstack Hbd Htilde Habs Hch.
  assert (Ht : pushd_target sys (mkPushdArgs None true false) st = inr (Some t, rest)).
  { unfold pushd_target. destruct (pushd_signs st) as [B F]. cbn [a_dir].
    rewrite Hstack, pop_front. reflexivity. }
  cbv zeta. rewrite (pushd_state sys [] _ st _ _ (pushd_parse_nil sys) Ht).
  unfold pushd_apply. cbn [a_cd]. unfold expanduser. rewrite Htilde.
  set (stc := change_working_directory sys t (set_DIRSTACK (PWD st :: rest) st)).
  assert (Hs : DIRSTACK stc = PWD st :: rest)
    by (subst stc; rewrite cwd_DIRSTACK; reflexivity).
  assert (Hz : DIRSTACK_SIZE stc = DIRSTACK_SIZE st)
    by (subst stc; rewrite cwd_DIRSTACK_SIZE; reflexivity).
  assert (Hb : bounded stc).
  { unfold bounded in *. rewrite Hs, Hz, len_cons.
    rewrite Hstack, len_cons in Hbd. exact Hbd. }
  rewrite (truncate_id stc Hb).
  destruct (chdir sys (world st) t) as [w'|] eqn:Hc; [|congruence].
  assert (Hc' : chdir sys (world (set_DIRSTACK (PWD st :: rest) st))
                  (path_abspath sys (world (set_DIRSTACK (PWD st :: rest) st))
                     (path_join sys (PWD (set_DIRSTACK (PWD st :: rest) st)) t)) = Some w')
    by (rewrite Habs; exact Hc).
  destruct (cwd_success sys t (set_DIRSTACK (PWD st :: rest) st) w' Hc') as (Hpwd & Hold & _).
  fold stc in Hpwd, Hold.
  rewrite Hpwd, Habs. repeat split; assumption.
Qed.

(** X10.  [pushd] without arguments exchanges [PWD] and the top of the
    stack, and doing it twice gives back the original [PWD] and stack:
    provided both directories are absolute normalised paths without a
    leading tilde, the stack is within its bound, and both changes of
    directory succeed. *)
Theorem pushd_twice_restores (st : State W) (t : string) (rest : list string) :
  DIRSTACK st = t :: rest -> bounded st ->
  Py.startswith "~" (PWD st) = false -> Py.startswith "~" t = false ->
  (forall w q, path_abspath sys w (path_join sys q t) = t) ->
  (forall w q, path_abspath sys w (path_join sys q (PWD st)) = PWD st) ->
  chdir sys (world st) t <> None ->
  let st1 := snd (pushd sys [] st) in
  chdir sys (world st1) (PWD st) <> None ->
  let st2 := snd (pushd sys [] st1) in
  (PWD st1 = t /\ DIRSTACK st1 = PWD st :: rest) /\
  (PWD st2 = PWD st /\ DIRSTACK st2 = DIRSTACK st).
Proof.
  intros Hstack Hbd Hp Htt Habt Habp Hch.
  destruct (pushd_swap st t rest Hstack Hbd Hp Habt Hch) as (H1 & H2 & H3 & _).
  cbv zeta. intros Hback. split; [split; assumption|].
  assert (Hbd1 : bounded (snd (pushd sys [] st))).
  { unfold bounded in *. rewrite H2, H3, len_cons.
    rewrite Hstack, len_cons in Hbd. exact Hbd. }
  assert (Ht1 : Py.startswith "~" (PWD (snd (pushd sys [] st))) = false)
    by (rewrite H1; exact Htt).
  destruct (pushd_swap (snd (pushd sys [] st)) (PWD st) rest H2 Hbd1 Ht1 Habp Hback)
    as (G1 & G2 & _).
  rewrite G1, G2, H1, Hstack. split; reflexivity.
Qed.

End StackCommands.

Lemma n_flag_suppresses_chdir_witness :
  PWD (snd (pushd Posix.sys ["-n"; "/a"] (Posix.st0 ["/b"]))) = "/p" /\
  PWD (snd (popd Posix.sys ["-n"] (Posix.st0 ["/b"]))) = "/p".
Proof.
  split.
  - destruct (n_flag_suppresses_chdir Posix.sys ["-n"; "/a"]
                (mkPushdArgs (Some "/a") false false) (Posix.st0 ["/b"]) eq_refl eq_refl)
      as ((H & _) & _).
    exact H.
  - destruct (n_flag_suppresses_chdir Posix.sys ["-n"]
                (mkPushdArgs None false false) (Posix.st0 ["/b"]) eq_refl eq_refl)
      as (_ & (H & _)).
    exact H.
Defined.

Lemma popd_removes_one_witness :
  Py.len (DIRSTACK (snd (popd Posix.sys [] (Posix.st0 ["/a"; "/b"])))) = 1.
Proof.
  assert (H : succeeded (fst (popd Posix.sys [] (Posix.st0 ["/a"; "/b"]))))
    by (vm_compute; exact I).
  destruct (popd_removes_one Posix.sys [] (Posix.st0 ["/a"; "/b"]) H) as [Hlen _].
  rewrite Hlen. reflexivity.
Defined.

Lemma popd_trims_interior_witness :
  DIRSTACK (snd (popd Posix.sys ["-1"] (Posix.st0 ["/a"; "/b"; "/c"]))) = ["/b"; "/c"] /\
  DIRSTACK (snd (popd Posix.sys ["+0"] (Posix.st0 ["/a"; "/b"; "/c"]))) = ["/a"; "/b"].
Proof.
  assert (N1 : numeral "1") by (split; [discriminate | reflexivity]).
  assert (N0 : numeral "0") by (split; [discriminate | reflexivity]).
  assert (L1 : Z.of_nat (String.length "1") <= Py.int_max_str_digits)
    by (vm_compute; discriminate).
  assert (L0 : Z.of_nat (String.length "0") <= Py.int_max_str_digits)
    by (vm_compute; discriminate).
  assert (R1 : 0 < numeral_value "1" <= Py.len (DIRSTACK (Posix.st0 ["/a"; "/b"; "/c"])))
    by (vm_compute; split; [reflexivity | discriminate]).
  assert (R0 : numeral_value "0" < Py.len (DIRSTACK (Posix.st0 ["/a"; "/b"; "/c"])))
    by (vm_compute; reflexivity).
  split.
  - destruct (popd_trims_interior Posix.sys ["-1"] (mkPushdArgs (Some "-1") true false)
                false "1" (Posix.st0 ["/a"; "/b"; "/c"]) eq_refl eq_refl N1 L1 R1)
      as (_ & H & _).
    rewrite H. reflexivity.
  - destruct (popd_trims_interior Posix.sys ["+0"] (mkPushdArgs (Some "+0") true false)
                true "0" (Posix.st0 ["/a"; "/b"; "/c"]) eq_refl eq_refl N0 L0 R0)
      as (_ & H & _).
    rewrite H. reflexivity.
Defined.

Lemma pushd_twice_restores_witness :
  PWD (snd (pushd Posix.sys [] (snd (pushd Posix.sys [] (Posix.st0 ["/a"; "/b"]))))) = "/p" /\
  DIRSTACK (snd (pushd Posix.sys [] (snd (pushd Posix.sys [] (Posix.st0 ["/a"; "/b"])))))
  = ["/a"; "/b"].
Proof.
  assert (Hb : bounded (Posix.st0 ["/a"; "/b"])) by (unfold bounded; cbn; lia).
  assert (A1 : forall w q, path_abspath Posix.sys w (path_join Posix.sys q "/a") = "/a")
    by (intros; reflexivity).
  assert (A2 : forall w q, path_abspath Posix.sys w
                             (path_join Posix.sys q (PWD (Posix.st0 ["/a"; "/b"]))) =
                           PWD (Posix.st0 ["/a"; "/b"])) by (intros; reflexivity).
  assert (C1 : chdir Posix.sys (world (Posix.st0 ["/a"; "/b"])) "/a" <> None)
    by (vm_compute; discriminate).
  assert (C2 : chdir Posix.sys (world (snd (pushd Posix.sys [] (Posix.st0 ["/a"; "/b"]))))
                 (PWD (Posix.st0 ["/a"; "/b"])) <> None)
    by (vm_compute; discriminate).
  destruct (pushd_twice_restores Posix.sys (Posix.st0 ["/a"; "/b"]) "/a" ["/b"]
              eq_refl Hb eq_refl eq_refl A1 A2 C1 C2) as (_ & H).
  exact H.
Defined.

(** ** Output, bounds and events *)

Section Output.
Context {W : Type} (sys : Sys W).

Lemma pushd_apply_PUSHD_SILENT (a : PushdArgs) new_pwd stack (st : State W) :
  PUSHD_SILENT (pushd_apply sys a new_pwd stack st) = PUSHD_SILENT st.
Proof.
  unfold pushd_apply. destruct new_pwd; [destruct (a_cd a)|]; try reflexivity.
  rewrite cwd_PUSHD_SILENT. reflexivity.
Qed.

(** X11.  A [pushd] or [popd] that succeeds returns the listing that
    [dirs] without arguments gives in the state it has left, unless [-q] or
    [PUSHD_SILENT] is set, and then it returns no output at all. *)
Theorem pushd_popd_listing (args : list string) (a : PushdArgs) (st : State W) :
  pushd_parse_args sys args = Some a ->
  let shown := negb (a_quiet a) && negb (PUSHD_SILENT st) in
  (succeeded (fst (pushd sys args st)) ->
   fst (pushd sys args st) =
   if shown then fst (dirs sys [] (snd (pushd sys args st))) else Triple None None 0) /\
  (succeeded (fst (popd sys args st)) ->
   fst (popd sys args st) =
   if shown then fst (dirs sys [] (snd (popd sys args st))) else Triple None None 0).
Proof.
  intros Hp. cbv zeta. split.
  - unfold pushd. rewrite Hp.
    destruct (pushd_target sys a st) as [r | [new_pwd stack]] eqn:Ht.
    + destruct (pushd_target_error sys a st r Ht) as [[e ->] | [e ->]]; intros [].
    + intros _. set (st1 := truncate (pushd_apply sys a new_pwd stack st)).
      assert (Hs : PUSHD_SILENT st1 = PUSHD_SILENT st).
      { subst st1. destruct (truncate_frame (pushd_apply sys a new_pwd stack st))
          as (_ & _ & _ & -> & _). apply pushd_apply_PUSHD_SILENT. }
      rewrite Hs. destruct (negb (a_quiet a) && negb (PUSHD_SILENT st)); [|reflexivity].
      destruct (dirs_nil sys st1) as [out Hd]. rewrite Hd. cbn [fst snd].
      rewrite Hd. reflexivity.
  - unfold popd. rewrite Hp.
    destruct (popd_target a st) as [r | [new_pwd stack]] eqn:Ht.
    + cbn [fst]. revert Ht. unfold popd_target. destruct (dirs_signs st) as [B F].
      repeat match goal with
             | |- context [match ?x with _ => _ end] => destruct x
             end; intros [= <-]; intros [].
    + intros _. set (st1 := match new_pwd with Some _ => _ | None => _ end).
      assert (Hs : PUSHD_SILENT st1 = PUSHD_SILENT st).
      { subst st1. destruct new_pwd; [destruct (a_cd a)|]; try reflexivity.
        rewrite cwd_PUSHD_SILENT. reflexivity. }
      rewrite Hs. destruct (negb (a_quiet a) && negb (PUSHD_SILENT st)); [|reflexivity].
      destruct (dirs_nil sys st1) as [out Hd]. rewrite Hd. cbn [fst snd].
      rewrite Hd. reflexivity.
Qed.

(** X12.  A sign-indexed argument whose number is written in at most
    4300 digits (the limit of [int()]) and is larger than the stack length
    is refused by [pushd] and by [popd] with exit code 1 and a
    message that reports the stack length; nothing is changed. *)
Theorem sign_index_too_large (args : list string) (a : PushdArgs) (plus : bool)
    (ds : string) (st : State W) :
  pushd_parse_args sys args = Some a ->
  a_dir a = Some (sign_token plus ds) -> numeral ds ->
  Z.of_nat (String.length ds) <= Py.int_max_str_digits ->
  Py.len (DIRSTACK st) < numeral_value ds ->
  let refused :=
    Triple None
      (Some ("Too few elements in dirstack ("
             ++ Py.str (Py.len (DIRSTACK st)) ++ " elements)" ++ nl)) 1 in
  (path_isdir sys (world st) (sign_token plus ds) = false ->
   pushd sys args st = (refused, st)) /\
  popd sys args st = (refused, st).
Proof.
  intros Hp Ha Hn Hl Hbig.
  pose proof (numeral_value_nonneg ds (proj2 Hn)) as Hpos.
  cbv zeta. split.
  - intros Hdir. unfold pushd. rewrite Hp.
    unfold pushd_target. destruct (pushd_signs st) as [B F].
    rewrite Ha, Hdir, (int_sign_token _ ds Hn Hl), (ltb_false _ 0 Hpos).
    rewrite gtb_true by assumption. reflexivity.
  - unfold popd. rewrite Hp.
    unfold popd_target. destruct (dirs_signs st) as [B F].
    rewrite Ha, (int_sign_token _ ds Hn Hl), (ltb_false _ 0 Hpos).
    rewrite gtb_true by assumption. reflexivity.
Qed.

(** X13.  [pushd] of an existing directory on a stack that is exactly
    full drops the oldest entry: the new stack is the pushed path followed
    by the old stack without its last element.  The pushed path is the old
    [PWD], or the directory itself under [-n]. *)
Theorem pushd_evicts_oldest (args : list string) (a : PushdArgs) (d : string)
    (st : State W) :
  pushd_parse_args sys args = Some a -> a_dir a = Some d ->
  path_isdir sys (world st) d = true ->
  Py.len (DIRSTACK st) = DIRSTACK_SIZE st -> 0 < DIRSTACK_SIZE st ->
  DIRSTACK (snd (pushd sys args st)) =
  expanduser sys (if a_cd a then PWD st else d) :: removelast (DIRSTACK st).
Proof.
  intros Hp Ha Hdir Hfull Hpos.
  assert (Ht : pushd_target sys a st = inr (Some d, DIRSTACK st)).
  { unfold pushd_target. destruct (pushd_signs st) as [B F].
    rewrite Ha, Hdir. reflexivity. }
  rewrite (pushd_state sys args a st _ _ Hp Ht).
  rewrite truncate_firstn by (rewrite pushd_apply_DIRSTACK_SIZE; lia).
  rewrite pushd_apply_DIRSTACK_SIZE.
  assert (Hs : DIRSTACK (pushd_apply sys a (Some d) (DIRSTACK st) st) =
               expanduser sys (if a_cd a then PWD st else d) :: DIRSTACK st).
  { unfold pushd_apply. destruct (a_cd a); [rewrite cwd_DIRSTACK|]; reflexivity. }
  rewrite Hs. unfold Py.len in Hfull.
  replace (Z.to_nat (DIRSTACK_SIZE st)) with (S (length (DIRSTACK st) - 1)) by lia.
  cbn [firstn]. f_equal.
  rewrite removelast_firstn_len. f_equal. lia.
Qed.

Lemma pwd_events_same (st st' : State W) : PWD st' = PWD st -> pwd_events st st' = [].
Proof. intros H. unfold pwd_events. rewrite H, String.eqb_refl. reflexivity. Qed.

(** X14.  Every call of [pushd] or [popd] fires at most one [on_chdir]
    event: the event for the old and the new [PWD] when the call has
    changed [PWD], and none when it has not. *)
Theorem pushd_popd_notify (args : list string) (st : State W) :
  on_chdir (snd (pushd sys args st)) =
    (on_chdir st ++ pwd_events st (snd (pushd sys args st)))%list /\
  on_chdir (snd (popd sys args st)) =
    (on_chdir st ++ pwd_events st (snd (popd sys args st)))%list.
Proof.
  assert (Hsame : forall st0 : State W, on_chdir st0 = (on_chdir st0 ++ pwd_events st0 st0)%list)
    by (intros st0; rewrite pwd_events_same, app_nil_r; reflexivity).
  assert (Hvia : forall st1 st2 : State W,
             PWD st2 = PWD st1 -> on_chdir st2 = on_chdir st1 ->
             on_chdir st1 = (on_chdir st ++ pwd_events st st1)%list ->
             on_chdir st2 = (on_chdir st ++ pwd_events st st2)%list).
  { intros st1 st2 Hpw Hev H. rewrite Hev, H. unfold pwd_events. rewrite Hpw. reflexivity. }
  assert (Hcwd : forall t l,
             on_chdir (change_working_directory sys t (set_DIRSTACK l st)) =
             (on_chdir st ++
                pwd_events st (change_working_directory sys t (set_DIRSTACK l st)))%list)
    by (intros t l; exact (cwd_log sys t (set_DIRSTACK l st))).
  split.
  - unfold pushd. destruct (pushd_parse_args sys args) as [a|]; [|apply Hsame].
    destruct (pushd_target sys a st) as [r | [new_pwd stack]]; [apply Hsame|].
    set (st0 := pushd_apply sys a new_pwd stack st).
    assert (H0 : on_chdir st0 = (on_chdir st ++ pwd_events st st0)%list).
    { subst st0. unfold pushd_apply. destruct new_pwd; [destruct (a_cd a)|].
      - apply Hcwd.
      - apply (Hvia st); [reflexivity | reflexivity | apply Hsame].
      - apply (Hvia st); [reflexivity | reflexivity | apply Hsame]. }
    assert (H1 : on_chdir (truncate st0) = (on_chdir st ++ pwd_events st (truncate st0))%list).
    { destruct (truncate_frame st0) as (Hp & _ & _ & _ & _ & He).
      exact (Hvia st0 (truncate st0) Hp He H0). }
    destruct (negb _ && negb _); [|exact H1].
    destruct (dirs_nil sys (truncate st0)) as [out ->]. exact H1.
  - unfold popd. destruct (pushd_parse_args sys args) as [a|]; [|apply Hsame].
    destruct (popd_target a st) as [r | [new_pwd stack]]; [apply Hsame|].
    set (st1 := match new_pwd with Some _ => _ | None => _ end).
    assert (H1 : on_chdir st1 = (on_chdir st ++ pwd_events st st1)%list).
    { subst st1. destruct new_pwd; [destruct (a_cd a)|].
      - apply Hcwd.
      - apply (Hvia st); [reflexivity | reflexivity | apply Hsame].
      - apply (Hvia st); [reflexivity | reflexivity | apply Hsame]. }
    destruct (negb _ && negb _); [|exact H1].
    destruct (dirs_nil sys st1) as [out ->]. exact H1.
Qed.

End Output.

Lemma pushd_popd_listing_witness :
  fst (pushd Posix.sys ["/a"] (Posix.st0 ["/b"])) =
    fst (dirs Posix.sys [] (snd (pushd Posix.sys ["/a"] (Posix.st0 ["/b"])))) /\
  fst (popd Posix.sys ["-q"] (Posix.st0 ["/b"])) = Triple None None 0.
Proof.
  split.
  - destruct (pushd_popd_listing Posix.sys ["/a"] (mkPushdArgs (Some "/a") true false)
                (Posix.st0 ["/b"]) eq_refl) as (H & _).
    apply H. vm_compute. exact I.
  - destruct (pushd_popd_listing Posix.sys ["-q"] (mkPushdArgs None true true)
                (Posix.st0 ["/b"]) eq_refl) as (_ & H).
    apply H. vm_compute. exact I.
Defined.

Lemma sign_index_too_large_witness :
  fst (pushd Posix.sys ["+4"] (Posix.st0 ["/a"; "/b"; "/c"])) =
    Triple None (Some ("Too few elements in dirstack (3 elements)" ++ nl)) 1 /\
  snd (popd Posix.sys ["+4"] (Posix.st0 ["/a"; "/b"; "/c"])) = Posix.st0 ["/a"; "/b"; "/c"].
Proof.
  assert (N4 : numeral "4") by (split; [discriminate | reflexivity]).
  assert (L4 : Z.of_nat (String.length "4") <= Py.int_max_str_digits)
    by (vm_compute; discriminate).
  assert (B : Py.len (DIRSTACK (Posix.st0 ["/a"; "/b"; "/c"])) < numeral_value "4")
    by (vm_compute; reflexivity).
  assert (D : path_isdir Posix.sys (world (Posix.st0 ["/a"; "/b"; "/c"]))
                (sign_token true "4") = false) by (vm_compute; reflexivity).
  destruct (sign_index_too_large Posix.sys ["+4"] (mkPushdArgs (Some "+4") true false)
              true "4" (Posix.st0 ["/a"; "/b"; "/c"]) eq_refl eq_refl N4 L4 B) as (H1 & H2).
  split.
  - rewrite (H1 D). reflexivity.
  - rewrite H2. reflexivity.
Defined.

Lemma pushd_evicts_oldest_witness :
  DIRSTACK (snd (pushd Posix.sys ["/c"] st_two)) = ["/p"; "/a"].
Proof.
  assert (D : path_isdir Posix.sys (world st_two) "/c" = true) by (vm_compute; reflexivity).
  assert (F : Py.len (DIRSTACK st_two) = DIRSTACK_SIZE st_two) by reflexivity.
  assert (P : 0 < DIRSTACK_SIZE st_two) by (cbn; lia).
  exact (pushd_evicts_oldest Posix.sys ["/c"] (mkPushdArgs (Some "/c") true false) "/c"
           st_two eq_refl eq_refl D F P).
Defined.

(** ** CDPATH *)

Section Cdpath.
Context {W : Type} (sys : Sys W).

Lemma try_cdpath_in_first (w : W) (apath : string) (cdpaths : list string) :
  (no_match sys w cdpaths apath /\ try_cdpath_in sys w cdpaths apath = apath) \/
  (exists before cdp after m rest,
      cdpaths = (before ++ cdp :: after)%list /\
      no_match sys w before apath /\
      iglob sys w (expand_path sys (path_join sys cdp apath)) = m :: rest /\
      try_cdpath_in sys w cdpaths apath = m).
Proof.
  induction cdpaths as [|cdp l IH]; cbn [try_cdpath_in].
  - left. split; [intros c []|reflexivity].
  - destruct (iglob sys w (expand_path sys (path_join sys cdp apath))) as [|m rest] eqn:Hg.
    + destruct IH as [[Hno Heq] | (before & c & after & m & rest & -> & Hno & Hm & Heq)].
      * left. split; [|exact Heq].
        intros c [<- | Hin]; [exact Hg | exact (Hno c Hin)].
      * right. exists (cdp :: before), c, after, m, rest.
        repeat split; try assumption.
        intros c' [<- | Hin]; [exact Hg | exact (Hno c' Hin)].
    + right. exists [], cdp, l, m, rest.
      repeat split; try assumption. intros c [].
Qed.

(** X15.  The CDPATH search returns the first glob match under the first
    root of [CDPATH] that has any match, and the path it was given when no
    root has one (in particular when [CDPATH] is empty). *)
Theorem try_cdpath_first_match (apath : string) (st : State W) :
  (no_match sys (world st) (CDPATH st) apath /\ try_cdpath sys apath st = apath) \/
  (exists before cdp after m rest,
      CDPATH st = (before ++ cdp :: after)%list /\
      no_match sys (world st) before apath /\
      iglob sys (world st) (expand_path sys (path_join sys cdp apath)) = m :: rest /\
      try_cdpath sys apath st = m).
Proof. unfold try_cdpath. apply try_cdpath_in_first. Qed.

(** X16.  [cd] consults [CDPATH] only for a word that is not an existing
    directory and does not start with a dash: an existing directory is
    taken as it is, whatever [CDPATH] holds, and otherwise [cd] goes on
    with the result of the search. *)
Theorem cd_prefers_existing_directory (arg : string) (st : State W) :
  let d := expanduser sys arg in
  Py.startswith "-" d = false ->
  cd sys [arg] st =
  cd_enter sys (if path_isdir sys (world st) d then d else try_cdpath sys d st) st.
Proof.
  intros d Hd. unfold cd, cd_resolve. fold d.
  destruct (path_isdir sys (world st) d); cbn [negb]; [reflexivity|].
  rewrite Hd.
  assert (Hne : String.eqb d "-" = false).
  { destruct (String.eqb_spec d "-") as [E|]; [|reflexivity].
    rewrite E in Hd. discriminate Hd. }
  rewrite Hne. reflexivity.
Qed.

End Cdpath.

Lemma cd_prefers_existing_directory_witness :
  PWD (snd (cd Posix.sys ["sub"] st_cdpath)) = "/p/sub" /\
  PWD (snd (cd Posix.sys ["b"] st_cdpath)) = "/b".
Proof.
  split.
  - pose proof (cd_prefers_existing_directory Posix.sys "sub" st_cdpath) as H.
    cbv zeta in H. rewrite (H eq_refl). vm_compute. reflexivity.
  - pose proof (cd_prefers_existing_directory Posix.sys "b" st_cdpath) as H.
    cbv zeta in H. rewrite (H eq_refl). vm_compute. reflexivity.
Defined.

(** ** dirs: selection and abbreviation *)

Lemma prefix_app (d r : string) : String.prefix d (d ++ r) = true.
Proof.
  induction d as [|c d IH]; cbn.
  - destruct r; reflexivity.
  - destruct (ascii_dec c c) as [_|Hne]; [exact IH | congruence].
Qed.

Lemma replace_from_skip (old new s r : string) :
  Py.replace_from old new (String.length s) (s ++ r) = Py.replace_from old new O r.
Proof.
  induction s as [|c s IH]; [reflexivity|]. cbn. exact IH.
Qed.

(** [str.replace] rewrites a leading occurrence. *)
Lemma replace_prefix (d r : string) :
  d <> EmptyString -> Py.replace d "~" (d ++ r) = "~" ++ Py.replace d "~" r.
Proof.
  intros Hne. destruct d as [|c d]; [congruence|].
  unfold Py.replace.
  change (String c d ++ r) with (String c (d ++ r)).
  cbn [Py.replace_from].
  change (String c (d ++ r)) with (String c d ++ r). rewrite prefix_app.
  cbn [String.length Nat.pred]. rewrite replace_from_skip. reflexivity.
Qed.

Section DirsMore.
Context {W : Type} (sys : Sys W).


(** X18.  In the default listing an entry that starts with the home
    directory is shown with a tilde in its place: when [PWD] is the home
    directory followed by [r], [dirs] without arguments prints a tilde,
    then [r], then the stack entries, separated by blanks. *)
Theorem dirs_abbreviates_home (r : string) (st : State W) :
  let home := expanduser sys "~" in
  home <> EmptyString ->
  expanduser sys (PWD st) = home ++ r ->
  dirs sys [] st =
  (Triple
     (Some (Py.join " " (("~" ++ Py.replace home "~" r)
                         :: map (Py.replace home "~") (DIRSTACK st)) ++ nl))
     None 0, st).
Proof.
  intros home Hne Hpwd. unfold dirs. rewrite (dirs_parse_nil sys).
  assert (dirs_signs st = ("-", "+")) as ->
    by (unfold dirs_signs; destruct (PUSHD_MINUS st); reflexivity).
  cbn [a_clear a_long a_verbose a_print_long a_N]. cbv iota beta zeta.
  fold home. rewrite Hpwd. cbn [map]. rewrite (replace_prefix home r Hne).
  reflexivity.
Qed.

End DirsMore.


Lemma dirs_abbreviates_home_witness :
  fst (dirs Posix.sys [] (mkState "/home/u/src" None [] false false false 20
                            ["/home/u"; "/b"] Posix.w0 [])) =
  Triple (Some ("~/src ~ /b" ++ nl)) None 0.
Proof.
  pose proof (dirs_abbreviates_home Posix.sys "/src"
                (mkState "/home/u/src" None [] false false false 20
                   ["/home/u"; "/b"] Posix.w0 [])) as H.
  cbv zeta in H. rewrite H.
  - vm_compute. reflexivity.
  - vm_compute. discriminate.
  - vm_compute. reflexivity.
Defined.

(** ** pushd: rotation to an indexed entry *)

Section Rotation.
Context {W : Type} (sys : Sys W).


End Rotation.

